(** * Credential and step-up authentication core

    A shallow embedding of the password hashing helpers and the token
    helpers of the auth library ([hashPassword], [verifyPassword],
    [generateToken], [verifyToken]) and of the admin OTP route
    ([generateOTP], the route's own [hashPassword], [POST]), together with
    the properties the design document states about them. *)

From Stdlib Require Import ZArith NArith Strings.String Strings.Ascii Strings.Byte.
From Stdlib Require Import List Lia Bool.
From stdpp Require Import base tactics option list gmap strings pretty.

Local Open Scope string_scope.

#[global] Instance byte_eq_dec : EqDecision byte := Byte.byte_eq_dec.

(** ** JavaScript strings

    A JS string is modelled as a Rocq [string]: one character per UTF-16
    code unit, restricted to code units in the range 0-255. *)
Module Js.

(** A value that may be [undefined]: a missing field of the request body
    or a missing element of a destructured array. *)
Definition truthy (v : option string) : bool :=
  match v with
  | Some (String _ _) => true
  | _ => false
  end.

(** [s.startsWith(p)] *)
Fixpoint startsWith (p s : string) : bool :=
  match p, s with
  | EmptyString, _ => true
  | String a p', String b s' => if Ascii.eqb a b then startsWith p' s' else false
  | String _ _, EmptyString => false
  end.

(** [s.split(sep)] for a one-character separator. The result is never
    empty: the empty string splits into one empty part. *)
Fixpoint split (sep : ascii) (s : string) : list string :=
  match s with
  | EmptyString => [EmptyString]
  | String c s' =>
      if Ascii.eqb c sep then EmptyString :: split sep s'
      else match split sep s' with
           | part :: parts => String c part :: parts
           | [] => [String c EmptyString]
           end
  end.

(** Line terminators in the modelled range: LF and CR. The regular
    expression [.] matches every other character. *)
Definition is_line_terminator (c : ascii) : bool :=
  Ascii.eqb c "010" || Ascii.eqb c "013".

(** All matches of [/.{2}/g], left to right. *)
Fixpoint pairs (s : string) : list string :=
  match s with
  | EmptyString => []
  | String a tl =>
      match tl with
      | EmptyString => []
      | String b rest =>
          if negb (is_line_terminator a) && negb (is_line_terminator b)
          then String a (String b EmptyString) :: pairs rest
          else pairs tl
      end
  end.

(** [s.match(/.{2}/g)]: [None] is JS [null] (no match at all). *)
Definition match_pairs (s : string) : option (list string) :=
  match pairs s with
  | [] => None
  | l => Some l
  end.

(** White space skipped by [parseInt], in the modelled range. *)
Definition is_white_space (c : ascii) : bool :=
  let n := N_of_ascii c in
  (((9 <=? n) && (n <=? 13)) || (n =? 32) || (n =? 160))%N.

Fixpoint trim_start (s : string) : string :=
  match s with
  | String c s' => if is_white_space c then trim_start s' else s
  | EmptyString => EmptyString
  end.

(** Value of a hexadecimal digit, either case. *)
Definition hex_value (c : ascii) : option Z :=
  let n := Z.of_N (N_of_ascii c) in
  if ((48 <=? n) && (n <=? 57))%Z then Some (n - 48)%Z
  else if ((97 <=? n) && (n <=? 102))%Z then Some (n - 87)%Z
  else if ((65 <=? n) && (n <=? 70))%Z then Some (n - 55)%Z
  else None.

(** The longest prefix of hexadecimal digits, read left to right;
    [None] when no digit has been read. *)
Fixpoint hex_prefix (acc : option Z) (s : string) : option Z :=
  match s with
  | EmptyString => acc
  | String c s' =>
      match hex_value c with
      | Some d => hex_prefix (Some (16 * default 0 acc + d)%Z) s'
      | None => acc
      end
  end.

(** [parseInt(s, 16)]; [None] is NaN. *)
Definition parseInt16 (s : string) : option Z :=
  let s1 := trim_start s in
  let '(sign, s2) :=
    match s1 with
    | String "-" r => ((-1)%Z, r)
    | String "+" r => (1%Z, r)
    | _ => (1%Z, s1)
    end in
  let s3 :=
    match s2 with
    | String "0" (String "x" r) => r
    | String "0" (String "X" r) => r
    | _ => s2
    end in
  match hex_prefix None s3 with
  | Some v => Some (sign * v)%Z
  | None => None
  end.

(** Storing a number into a [Uint8Array]: NaN becomes 0, an integer is
    reduced modulo 256. *)
Definition toUint8 (v : option Z) : byte :=
  match v with
  | Some z => default x00 (Byte.of_N (Z.to_N (z mod 256)%Z))
  | None => x00
  end.

(** One digit of [Number.prototype.toString(16)]. *)
Definition hex_digit (n : N) : ascii :=
  match String.get (N.to_nat n) "0123456789abcdef" with
  | Some c => c
  | None => "?"%char
  end.

(** [b.toString(16)] for an element of a [Uint8Array]. *)
Definition toString16 (b : byte) : string :=
  let n := Byte.to_N b in
  if (n <? 16)%N then String (hex_digit n) EmptyString
  else String (hex_digit (n / 16)) (String (hex_digit (n mod 16)) EmptyString).

(** [s.padStart(2, '0')] *)
Definition padStart2 (s : string) : string :=
  match s with
  | EmptyString => "00"
  | String c EmptyString => String "0" s
  | _ => s
  end.

(** [b => b.toString(16).padStart(2, '0')] *)
Definition hex_pair (b : byte) : string := padStart2 (toString16 b).

(** [arr.map(b => b.toString(16).padStart(2, '0')).join('')] *)
Definition hex_of_bytes (l : list byte) : string :=
  String.concat EmptyString (map hex_pair l).

(** [String(n)] for a non-negative integer. *)
Definition String_of_N (n : N) : string := pretty n.

End Js.

(** ** Results of asynchronous functions

    An [async] function either resolves with a value or rejects with an
    exception. *)
Inductive Outcome (A : Type) : Type :=
  | Returned (a : A)
  | Thrown.
Arguments Returned {A} a.
Arguments Thrown {A}.

(** [try { body } catch { return fallback }] *)
Definition try_catch {A : Type} (body : Outcome A) (fallback : A) : Outcome A :=
  match body with
  | Returned a => Returned a
  | Thrown => Returned fallback
  end.

(** ** The platform's cryptography

    [TextEncoder] and the Web Crypto operations the code calls are platform
    services; the development is parametric in them. *)
Class WebCrypto : Type := {
  (** [new TextEncoder().encode(s)] *)
  encode : string -> list byte;
  (** [crypto.subtle.digest('SHA-256', data)] *)
  digest_sha256 : list byte -> list byte;
  (** [crypto.subtle.deriveBits({ name: 'PBKDF2', salt, iterations,
      hash: 'SHA-256' }, importKey('raw', key, 'PBKDF2'), bits)] *)
  deriveBits_pbkdf2 : list byte -> N -> list byte -> N -> list byte;
}.

(** [deriveBits] returns as many bits as it was asked for: 32 bytes for
    the 256 bits both callers ask for. *)
Class WebCryptoSpec (C : WebCrypto) : Prop := {
  deriveBits_256 : forall salt iterations key,
    length (deriveBits_pbkdf2 salt iterations key 256) = 32%nat;
}.

(** The entropy source behind [crypto.getRandomValues]: the byte written to
    each index of the array. *)
Definition Entropy : Type := nat -> byte.

(** [crypto.getRandomValues(new Uint8Array(n))] *)
Definition getRandomValues (rnd : Entropy) (n : nat) : list byte :=
  map rnd (seq 0 n).

(** ** The auth library: password hashing *)
Module Auth.
Section WithCrypto.
Context {C : WebCrypto}.

(** [hashPassword]: PBKDF2 with a fresh 16-byte salt, 100000 iterations,
    256 bits; the result is [salt$hash], both in hexadecimal. *)
Definition hashPassword (rnd : Entropy) (password : string) : string :=
  let salt := getRandomValues rnd 16 in
  let keyMaterial := encode password in
  let derivedBits := deriveBits_pbkdf2 salt 100000 keyMaterial 256 in
  let saltHex := Js.hex_of_bytes salt in
  let hashHex := Js.hex_of_bytes derivedBits in
  saltHex ++ "$" ++ hashHex.

(** The body of the [try] block of [verifyPassword]. Calling [map] on the
    [null] that [match] returns for a salt with no two-character match
    throws. Past the guard both parts are defined, so the defaults are
    never used. *)
Definition verifyPassword_try (password storedHash : string) : Outcome bool :=
  if Js.startsWith "$2" storedHash then Returned false
  else
    let parts := Js.split "$" storedHash in
    let saltHex := parts !! 0%nat in
    let hashHex := parts !! 1%nat in
    if negb (Js.truthy saltHex) || negb (Js.truthy hashHex) then Returned false
    else
      match Js.match_pairs (default EmptyString saltHex) with
      | None => Thrown
      | Some chunks =>
          let salt := map (fun byte => Js.toUint8 (Js.parseInt16 byte)) chunks in
          let keyMaterial := encode password in
          let derivedBits := deriveBits_pbkdf2 salt 100000 keyMaterial 256 in
          let computedHashHex := Js.hex_of_bytes derivedBits in
          Returned (String.eqb computedHashHex (default EmptyString hashHex))
      end.

(** [verifyPassword]: the [catch] block turns every exception into
    [false]. *)
Definition verifyPassword (password storedHash : string) : Outcome bool :=
  try_catch (verifyPassword_try password storedHash) false.

End WithCrypto.
End Auth.

(** ** The auth library: session tokens *)
Module Token.

Inductive Role : Type := admin | customer | partner.

(** [UserPayload] *)
Record UserPayload : Type := {
  id : Z;
  email : string;
  role : Role;
  name : string;
}.

(** Modelled from the spec: the claim set of a token of the jose library
    (section 3, SessionToken): the user's claims and the registered claims
    [iat], [exp] and [jti], in seconds since the epoch where they are
    times. A registered claim is absent until its setter is called. *)
Record JwtPayload : Type := {
  claims : UserPayload;
  iat : option Z;
  exp : option Z;
  jti : option string;
}.

(** Modelled from the spec: a token of the jose library (section 6: a
    compact structure of header, payload and signature). *)
Record Jwt : Type := {
  alg : option string;
  payload : JwtPayload;
  signature : list byte;
}.

(** Modelled from the spec: the JWS signature that the jose library
    computes over the encoded protected header and payload with the
    process-wide key (section 4.2: the token is signed with the
    process-wide secret key; section 6: a compact three-part signed
    structure). The library is a dependency whose code is not part of
    the sources. *)
Class Jws : Type := {
  hs256 : list byte -> option string -> JwtPayload -> list byte;
}.

Section Jose.
Context {J : Jws}.

(** Modelled from the spec: the [SignJWT] builder of the jose library
    (section 4.2: payload = claims + issuedAt + expiresAt (now + 24h) +
    a fresh random token id, header alg = HMAC-SHA256). [new SignJWT(p)]
    starts from the claims alone. *)
Definition SignJWT (p : UserPayload) : Jwt :=
  {| alg := None;
     payload := {| claims := p; iat := None; exp := None; jti := None |};
     signature := [] |}.

(** Modelled from the spec: [setProtectedHeader({ alg })] of the jose
    library (section 4.2: header alg = HMAC-SHA256). *)
Definition setProtectedHeader (a : string) (t : Jwt) : Jwt :=
  {| alg := Some a; payload := payload t; signature := signature t |}.

(** Modelled from the spec: [setIssuedAt()] of the jose library (section
    4.2: issuedAt is the time of issue). *)
Definition setIssuedAt (now : Z) (t : Jwt) : Jwt :=
  {| alg := alg t;
     payload := {| claims := claims (payload t); iat := Some now;
                   exp := exp (payload t); jti := jti (payload t) |};
     signature := signature t |}.

(** Modelled from the spec: [setExpirationTime(span)] of the jose library
    with a time span, in seconds, counted from the current time (section
    4.2: expiresAt = now + 24h). *)
Definition setExpirationTime (now span : Z) (t : Jwt) : Jwt :=
  {| alg := alg t;
     payload := {| claims := claims (payload t); iat := iat (payload t);
                   exp := Some (now + span)%Z; jti := jti (payload t) |};
     signature := signature t |}.

(** Modelled from the spec: [setJti(id)] of the jose library (section
    4.2: a fresh random token id). *)
Definition setJti (i : string) (t : Jwt) : Jwt :=
  {| alg := alg t;
     payload := {| claims := claims (payload t); iat := iat (payload t);
                   exp := exp (payload t); jti := Some i |};
     signature := signature t |}.

(** Modelled from the spec: [sign(key)] of the jose library (section
    4.2: signs with the process-wide secret key). *)
Definition sign (key : list byte) (t : Jwt) : Jwt :=
  {| alg := alg t; payload := payload t;
     signature := hs256 key (alg t) (payload t) |}.

(** Modelled from the spec: [jwtVerify] of the jose library (section
    4.2: validates signature, decodes payload, rejects if expired or
    signature mismatch; section 3: the token becomes invalid at
    expiresAt). A rejection is an exception. *)
Definition jwtVerify (now : Z) (t : Jwt) (key : list byte) : Outcome JwtPayload :=
  if negb (bool_decide (alg t = Some "HS256")) then Thrown
  else if negb (bool_decide (signature t = hs256 key (alg t) (payload t))) then Thrown
  else
    match exp (payload t) with
    | Some e => if (e <=? now)%Z then Thrown else Returned (payload t)
    | None => Returned (payload t)
    end.

(** [TOKEN_EXPIRY = '24h'], in seconds. *)
Definition TOKEN_EXPIRY : Z := 24 * 60 * 60.

(** [generateToken], at time [now] (seconds) with [uuid] the result of
    [crypto.randomUUID()] and [JWT_SECRET] the process-wide key. *)
Definition generateToken (JWT_SECRET : list byte) (now : Z) (uuid : string)
    (p : UserPayload) : Jwt :=
  sign JWT_SECRET
    (setJti uuid
       (setExpirationTime now TOKEN_EXPIRY
          (setIssuedAt now
             (setProtectedHeader "HS256" (SignJWT p))))).

(** [verifyToken]: the decoded payload, or [None] for [null] when
    [jwtVerify] throws. *)
Definition verifyToken (JWT_SECRET : list byte) (now : Z) (token : Jwt)
    : option JwtPayload :=
  match jwtVerify now token JWT_SECRET with
  | Returned p => Some p
  | Thrown => None
  end.

End Jose.
End Token.

(** ** The admin OTP route *)
Module OtpRoute.

(** The value type of [otpStore]. *)
Record OtpEntry : Type := {
  otp : string;
  expires : Z;
  verified : bool;
}.

(** [interface AdminUser]: the columns both queries select. *)
Record AdminUser : Type := {
  id : Z;
  email : string;
  password_hash : string;
}.

(** A row of the [users] table: the selected columns, [role] and
    [updated_at]. *)
Record UserRow : Type := {
  user : AdminUser;
  role : string;
  user_updated_at : Z;
}.

(** A row of the [admin_users] table. *)
Record AdminUserRow : Type := {
  admin_user : AdminUser;
  admin_updated_at : Z;
}.

(** The account store: both tables in row order, and the store's reading
    of [CURRENT_TIMESTAMP]. Text is compared byte by byte. *)
Record Database : Type := {
  users : list UserRow;
  admin_users : list AdminUserRow;
  current_timestamp : Z;
}.

(** The four statements the route sends, with their parameters in the
    order of the [?] placeholders. *)
Inductive Statement : Type :=
  (** [SELECT id, email, password_hash FROM users WHERE email = ? AND role = ?] *)
  | SelectUser (email role : string)
  (** [SELECT id, email, password_hash FROM admin_users WHERE email = ?] *)
  | SelectAdminUser (email : string)
  (** [UPDATE users SET password_hash = ?, updated_at = CURRENT_TIMESTAMP
      WHERE email = ? AND role = ?] *)
  | UpdateUser (password_hash email role : string)
  (** [UPDATE admin_users SET password_hash = ?, updated_at =
      CURRENT_TIMESTAMP WHERE email = ?] *)
  | UpdateAdminUser (password_hash email : string).

(** What a call of the handler does besides answering: statements sent to
    the account store through [queryOne] and [execute], and the line
    [sendOTPEmail] writes to the log. *)
Inductive Effect : Type :=
  | QueryOne (s : Statement)
  | Execute (s : Statement)
  | EmailLog (email otp : string).

Definition user_matches (e r : string) (row : UserRow) : bool :=
  String.eqb (email (user row)) e && String.eqb (role row) r.

Definition admin_matches (e : string) (row : AdminUserRow) : bool :=
  String.eqb (email (admin_user row)) e.

(** The rows a statement returns. *)
Definition rows (s : Statement) (d : Database) : list AdminUser :=
  match s with
  | SelectUser e r => map user (List.filter (user_matches e r) (users d))
  | SelectAdminUser e =>
      map admin_user (List.filter (admin_matches e) (admin_users d))
  | UpdateUser _ _ _ | UpdateAdminUser _ _ => []
  end.

Definition set_hash (h : string) (u : AdminUser) : AdminUser :=
  {| id := id u; email := email u; password_hash := h |}.

(** The store after a statement. *)
Definition apply (s : Statement) (d : Database) : Database :=
  match s with
  | SelectUser _ _ | SelectAdminUser _ => d
  | UpdateUser h e r =>
      {| users :=
           map (fun row =>
                  if user_matches e r row
                  then {| user := set_hash h (user row); role := role row;
                          user_updated_at := current_timestamp d |}
                  else row) (users d);
         admin_users := admin_users d;
         current_timestamp := current_timestamp d |}
  | UpdateAdminUser h e =>
      {| users := users d;
         admin_users :=
           map (fun row =>
                  if admin_matches e row
                  then {| admin_user := set_hash h (admin_user row);
                          admin_updated_at := current_timestamp d |}
                  else row) (admin_users d);
         current_timestamp := current_timestamp d |}
  end.

(** The module-level state the handler works on: the [otpStore] map and
    the account store behind [@/lib/db]. *)
Record World : Type := {
  otpStore : gmap string OtpEntry;
  db : Database;
}.

(** Handler computations: they read and update the world and emit
    effects. *)
Definition M (A : Type) : Type := World -> A * World * list Effect.

#[global] Instance M_ret : MRet M := fun A a w => (a, w, []).
#[global] Instance M_bind : MBind M := fun A B f m w =>
  let '(a, w1, t1) := m w in
  let '(b, w2, t2) := f a w1 in
  (b, w2, (t1 ++ t2)%list).

(** [queryOne(sql, params)]: the first row, if any. The account store is
    taken to answer every statement; a store that throws would send the
    handler to its [catch] block. *)
Definition queryOne (s : Statement) : M (option AdminUser) := fun w =>
  (head (rows s (db w)), w, [QueryOne s]).

(** [execute(sql, params)]; the route ignores the result set. *)
Definition execute (s : Statement) : M unit := fun w =>
  (tt, {| otpStore := otpStore w; db := apply s (db w) |}, [Execute s]).

(** [otpStore.get(key)] *)
Definition otpStore_get (key : string) : M (option OtpEntry) := fun w =>
  (otpStore w !! key, w, []).

(** [otpStore.set(key, value)] *)
Definition otpStore_set (key : string) (value : OtpEntry) : M unit := fun w =>
  (tt, {| otpStore := <[key := value]> (otpStore w); db := db w |}, []).

(** [otpStore.delete(key)] *)
Definition otpStore_delete (key : string) : M unit := fun w =>
  (tt, {| otpStore := delete key (otpStore w); db := db w |}, []).

(** [sendOTPEmail]: writes the code to the log and resolves. *)
Definition sendOTPEmail (e o : string) : M unit := fun w =>
  (tt, w, [EmailLog e o]).

(** Storing a number into a [Uint32Array]. *)
Definition toUint32 (n : N) : N := (n mod 2 ^ 32)%N.

(** [generateOTP], with [rnd] the number [crypto.getRandomValues] draws. *)
Definition generateOTP (rnd : N) : string :=
  let array0 := toUint32 rnd in
  Js.String_of_N (100000 + (array0 mod 900000))%N.

(** The JSON responses of the handler, each with its status. *)
Inductive Reply : Type :=
  (** 400, "incomplete data": [action] or [email] missing, or
      [changePassword] without [otp] or [newPassword] *)
  | IncompleteData
  (** 404, "email not registered" *)
  | EmailNotRegistered
  (** 200, "verification code sent" *)
  | OtpSent
  (** 400, "verification code required" *)
  | OtpRequired
  (** 400, "no verification code was requested" *)
  | NoOtpRequested
  (** 400, "the verification code has expired" *)
  | OtpExpired
  (** 400, "the verification code is incorrect" *)
  | OtpIncorrect
  (** 200, "verified" *)
  | OtpVerified
  (** 400, "please verify the OTP code first" *)
  | VerifyOtpFirst
  (** 400, "the session has expired, start again" *)
  | SessionExpired
  (** 200, "password changed" *)
  | PasswordChanged
  (** 400, "unknown action" *)
  | UnknownAction
  (** 500, "server error": the [catch] block *)
  | ServerError.

#[global] Instance Reply_eq_dec : EqDecision Reply.
Proof. solve_decision. Defined.

Definition status (r : Reply) : Z :=
  match r with
  | OtpSent | OtpVerified | PasswordChanged => 200
  | EmailNotRegistered => 404
  | ServerError => 500
  | _ => 400
  end.

(** The failure kinds of the design's error taxonomy. *)
Inductive Failure : Type :=
  | ValidationError | NotFound | NoChallenge | Expired | CodeMismatch
  | NotVerified | Fatal.

(** The kind of each failing reply: [None] for the three successes. *)
Definition failure (r : Reply) : option Failure :=
  match r with
  | OtpSent | OtpVerified | PasswordChanged => None
  | IncompleteData | OtpRequired | UnknownAction => Some ValidationError
  | EmailNotRegistered => Some NotFound
  | NoOtpRequested => Some NoChallenge
  | OtpExpired | SessionExpired => Some Expired
  | OtpIncorrect => Some CodeMismatch
  | VerifyOtpFirst => Some NotVerified
  | ServerError => Some Fatal
  end.

(** The parsed request body. The four fields are strings, as the
    operations of the design have them; a field that is absent is
    [None]. *)
Record Body : Type := {
  action : option string;
  body_email : option string;
  body_otp : option string;
  newPassword : option string;
}.

Definition ADMIN_EMAIL : string := "info@tdlogistics.co".

Section WithCrypto.
Context {C : WebCrypto}.

(** The route's own [hashPassword]: the SHA-256 digest of the password
    in hexadecimal. *)
Definition hashPassword (password : string) : string :=
  let data := encode password in
  let hashBuffer := digest_sha256 data in
  Js.hex_of_bytes hashBuffer.

(** [case 'request'] *)
Definition request (now : Z) (rnd : N) (e : string) : M Reply :=
  let newOTP := generateOTP rnd in
  otpStore_set e {| otp := newOTP;
                    expires := (now + 10 * 60 * 1000)%Z;
                    verified := false |};;
  sendOTPEmail e newOTP;;
  mret OtpSent.

(** [case 'verify'] *)
Definition verify (now : Z) (e : string) (o : option string) : M Reply :=
  if negb (Js.truthy o) then mret OtpRequired
  else
    stored ← otpStore_get e;
    match stored with
    | None => mret NoOtpRequested
    | Some stored =>
        if (now >? expires stored)%Z then
          otpStore_delete e;; mret OtpExpired
        else if negb (bool_decide (Some (otp stored) = o)) then
          mret OtpIncorrect
        else
          otpStore_set e {| otp := otp stored; expires := expires stored;
                            verified := true |};;
          mret OtpVerified
    end.

(** [case 'changePassword'] *)
Definition changePassword (now : Z) (e : string) (o p : option string) : M Reply :=
  if negb (Js.truthy o) || negb (Js.truthy p) then mret IncompleteData
  else
    stored ← otpStore_get e;
    match stored with
    | None => mret VerifyOtpFirst
    | Some stored =>
        if negb (verified stored) then mret VerifyOtpFirst
        else if (now >? expires stored)%Z then
          otpStore_delete e;; mret SessionExpired
        else if negb (bool_decide (Some (otp stored) = o)) then
          mret OtpIncorrect
        else
          let passwordHash := hashPassword (default EmptyString p) in
          execute (UpdateUser passwordHash e "admin");;
          execute (UpdateAdminUser passwordHash e);;
          otpStore_delete e;;
          mret PasswordChanged
    end.

(** The lookups before the [switch]: the [users] table first, then
    [admin_users]; [true] when either has the admin. *)
Definition find_admin (e : string) : M bool :=
  admin ← queryOne (SelectUser e "admin");
  match admin with
  | Some _ => mret true
  | None =>
      adminUser ← queryOne (SelectAdminUser e);
      mret (bool_decide (is_Some adminUser))
  end.

(** [switch (action)]: the cases are tried in order with strict
    equality. *)
Definition switch (a : string) (now : Z) (rnd : N) (e : string) (body : Body)
    : M Reply :=
  if String.eqb a "request" then request now rnd e
  else if String.eqb a "verify" then verify now e (body_otp body)
  else if String.eqb a "changePassword" then
    changePassword now e (body_otp body) (newPassword body)
  else mret UnknownAction.

(** [POST]: [now] is the reading of [Date.now()], [rnd] what the random
    source yields, [body] the result of [request.json()], [None] when
    parsing throws. *)
Definition POST (now : Z) (rnd : N) (body : option Body) : M Reply :=
  match body with
  | None => mret ServerError
  | Some body =>
      if negb (Js.truthy (action body)) || negb (Js.truthy (body_email body))
      then mret IncompleteData
      else
        let e := default EmptyString (body_email body) in
        if negb (String.eqb e ADMIN_EMAIL) then mret EmailNotRegistered
        else
          found ← find_admin e;
          if negb found then mret EmailNotRegistered
          else switch (default EmptyString (action body)) now rnd e body
  end.

End WithCrypto.
End OtpRoute.

(** ** Vocabulary of the properties *)

(** Stored credentials, as the design document describes them. *)
Module Credential.

(** The separator occurs in the string. *)
Definition has_separator (s : string) : Prop :=
  In "$"%char (list_ascii_of_string s).

(** A legacy value: it carries the bcrypt prefix. *)
Definition legacy (stored : string) : Prop :=
  exists rest, stored = "$2" ++ rest.

(** A malformed value lacks the salt part or the derived-key part around
    the separator: there is no separator at all, or nothing before the
    first one, or nothing between the first one and the next (or the
    end). *)
Inductive malformed : string -> Prop :=
  | no_separator (s : string) :
      ~ has_separator s -> malformed s
  | missing_salt (rest : string) :
      malformed ("$" ++ rest)
  | missing_key_at_end (salt : string) :
      ~ has_separator salt -> malformed (salt ++ "$")
  | missing_key_before_separator (salt rest : string) :
      ~ has_separator salt -> malformed (salt ++ "$$" ++ rest).

(** The format of section 4.1: a 16-byte salt and a 32-byte derived key,
    both in hexadecimal, around one separator. *)
Definition pbkdf2_format (s : string) : Prop :=
  exists salt key : list byte,
    length salt = 16%nat /\ length key = 32%nat /\
    s = Js.hex_of_bytes salt ++ "$" ++ Js.hex_of_bytes key.

End Credential.

(** Calls of the route and what to observe of their results. *)
Module Call.
Import OtpRoute.

Definition reply {A : Type} (x : A * World * list Effect) : A := x.1.1.
Definition world {A : Type} (x : A * World * list Effect) : World := x.1.2.
Definition effects {A : Type} (x : A * World * list Effect) : list Effect := x.2.

(** The statements a call passed to [execute], in order. *)
Fixpoint updates (t : list Effect) : list Statement :=
  match t with
  | [] => []
  | Execute s :: t' => s :: updates t'
  | _ :: t' => updates t'
  end.

(** The identity passes the checks in front of the [switch]: it is the
    admin address, and the [users] table has it with the admin role or the
    [admin_users] table has it. *)
Definition eligible (e : string) (d : Database) : Prop :=
  e = ADMIN_EMAIL /\
  ((exists row, In row (users d) /\ email (user row) = e /\ role row = "admin") \/
   (exists row, In row (admin_users d) /\ email (admin_user row) = e)).

(** The request bodies of the three operations. *)
Definition request_call (e : string) : option Body :=
  Some {| action := Some "request"; body_email := Some e;
          body_otp := None; newPassword := None |}.

Definition verify_call (e code : string) : option Body :=
  Some {| action := Some "verify"; body_email := Some e;
          body_otp := Some code; newPassword := None |}.

Definition changePassword_call (e code newSecret : string) : option Body :=
  Some {| action := Some "changePassword"; body_email := Some e;
          body_otp := Some code; newPassword := Some newSecret |}.

(** The challenge a [request] at time [now] stores when the random source
    yields [rnd]. *)
Definition fresh_challenge (now : Z) (rnd : N) : OtpEntry :=
  {| otp := generateOTP rnd; expires := (now + 600000)%Z; verified := false |}.

End Call.

(** Statements of the design document that the route does not satisfy as
    they are worded; each is refuted below and followed by the statement
    that does hold. *)
Module AsStated.
Import OtpRoute Call.

(** Past the expiry of a stored challenge, verified or not, every [verify]
    and every [changePassword] fails with [Expired] and removes the
    entry. *)
Definition expired_challenge_always_Expired : Prop :=
  forall (C : WebCrypto) (w : World) (e : string) (ent : OtpEntry)
         (now : Z) (rnd : N) (code newSecret : string),
    eligible e (db w) ->
    otpStore w !! e = Some ent ->
    (expires ent < now)%Z ->
    code <> "" -> newSecret <> "" ->
    let v := POST now rnd (verify_call e code) w in
    let c := POST now rnd (changePassword_call e code newSecret) w in
    failure (reply v) = Some Expired /\ otpStore (world v) !! e = None /\
    failure (reply c) = Some Expired /\ otpStore (world c) !! e = None.

(** After two requests in a row the first code fails with [CodeMismatch]
    and the second verifies. *)
Definition first_code_never_verifies : Prop :=
  forall (C : WebCrypto) (w : World) (e : string)
         (t1 t2 now : Z) (r1 r2 rnd : N),
    eligible e (db w) ->
    (now <= t2 + 600000)%Z ->
    let w1 := world (POST t1 r1 (request_call e) w) in
    let w2 := world (POST t2 r2 (request_call e) w1) in
    failure (reply (POST now rnd (verify_call e (generateOTP r1)) w2))
      = Some CodeMismatch /\
    reply (POST now rnd (verify_call e (generateOTP r2)) w2) = OtpVerified.

(** With a live challenge, a [verify] with any code other than the stored
    one fails with [CodeMismatch] and changes nothing. *)
Definition other_code_is_CodeMismatch : Prop :=
  forall (C : WebCrypto) (w : World) (e : string) (ent : OtpEntry)
         (now : Z) (rnd : N) (code : string),
    eligible e (db w) ->
    otpStore w !! e = Some ent ->
    (now <= expires ent)%Z ->
    code <> otp ent ->
    let v := POST now rnd (verify_call e code) w in
    failure (reply v) = Some CodeMismatch /\ world v = w.

(** A successful [changePassword] sends one update to the account
    store. *)
Definition one_update_per_change : Prop :=
  forall (C : WebCrypto) (w : World) (now : Z) (rnd : N) (body : option Body),
    reply (POST now rnd body w) = PasswordChanged ->
    length (updates (effects (POST now rnd body w))) = 1%nat.

(** A successful [changePassword] stores the hash the auth library's
    [hashPassword] makes, in the format of section 4.1. *)
Definition change_stores_library_hash : Prop :=
  forall (C : WebCrypto) (w : World) (now : Z) (rnd : N)
         (e code newSecret : string),
    reply (POST now rnd (changePassword_call e code newSecret) w) = PasswordChanged ->
    exists h,
      updates (effects (POST now rnd (changePassword_call e code newSecret) w))
        = [UpdateUser h e "admin"; UpdateAdminUser h e] /\
      Credential.pbkdf2_format h.

End AsStated.

(** Concrete data for the examples. *)
Module Fixture.
Import OtpRoute Call.

(** A stand-in for the platform's cryptography: the digest is the first
    32 bytes of the zero-padded input, the derived bits are the first bytes
    of key, salt and padding. *)
#[local] Instance crypto : WebCrypto := {|
  encode s := map byte_of_ascii (list_ascii_of_string s);
  digest_sha256 data := take 32 (data ++ repeat x00 32);
  deriveBits_pbkdf2 salt iterations key bits :=
    take (N.to_nat (bits / 8)) (key ++ salt ++ repeat x2a (N.to_nat (bits / 8)));
|}.

(** A stand-in signature: the key itself. *)
#[local] Instance jws : Token.Jws := {|
  Token.hs256 key a p := key;
|}.

Definition entropy : Entropy :=
  fun i => default x00 (Byte.of_N (N.of_nat (17 * i + 3))).

Definition admin_row : UserRow :=
  {| user := {| id := 1; email := ADMIN_EMAIL; password_hash := "old" |};
     role := "admin"; user_updated_at := 0 |}.

Definition database : Database :=
  {| users := [admin_row]; admin_users := []; current_timestamp := 5 |}.

(** The state of a fresh process: no challenge stored. *)
Definition start : World := {| otpStore := ∅; db := database |}.

(** A visitor of the site. *)
Definition visitor : Token.UserPayload :=
  {| Token.id := 7; Token.email := "a@x.com"; Token.role := Token.customer;
     Token.name := "A" |}.

End Fixture.

(** ** The rest of the code *)

(** *** The auth library: password strength *)
Module Strength.

(** The messages [validatePasswordStrength] pushes, in the order of its
    checks. *)
Inductive Message : Type :=
  (** "the password must be at least 8 characters" *)
  | TooShort
  (** "it must contain an upper-case letter" *)
  | NoUpper
  (** "it must contain a lower-case letter" *)
  | NoLower
  (** "it must contain a digit" *)
  | NoDigit
  (** "it must contain a special character" *)
  | NoSpecial.

#[global] Instance Message_eq_dec : EqDecision Message.
Proof. solve_decision. Defined.

(** A character range of a regular expression class, by code unit. *)
Definition in_range (lo hi : N) (c : ascii) : bool :=
  let n := N_of_ascii c in ((lo <=? n) && (n <=? hi))%N.

(** [[A-Z]], [[a-z]], [[0-9]] and [[^A-Za-z0-9]] *)
Definition upper (c : ascii) : bool := in_range 65 90 c.
Definition lower (c : ascii) : bool := in_range 97 122 c.
Definition digit (c : ascii) : bool := in_range 48 57 c.
Definition special (c : ascii) : bool := negb (upper c || lower c || digit c).

(** [/[class]/.test(s)]: some character of [s] is in the class. *)
Fixpoint test (class : ascii -> bool) (s : string) : bool :=
  match s with
  | EmptyString => false
  | String c s' => class c || test class s'
  end.

(** [errors.push(m)] *)
Definition push (errors : list Message) (m : Message) : list Message :=
  (errors ++ [m])%list.

(** The result object [{ valid, errors }]. *)
Record Verdict : Type := {
  valid : bool;
  errors : list Message;
}.

(** [validatePasswordStrength] *)
Definition validatePasswordStrength (password : string) : Verdict :=
  let errors := [] in
  let errors := if (String.length password <? 8)%nat then push errors TooShort
                else errors in
  let errors := if negb (test upper password) then push errors NoUpper else errors in
  let errors := if negb (test lower password) then push errors NoLower else errors in
  let errors := if negb (test digit password) then push errors NoDigit else errors in
  let errors := if negb (test special password) then push errors NoSpecial
                else errors in
  {| valid := (length errors =? 0)%nat; errors := errors |}.

(** The rule a message stands for is broken by the password. *)
Definition broken (m : Message) (password : string) : Prop :=
  match m with
  | TooShort => (String.length password < 8)%nat
  | NoUpper => ~ exists c, In c (list_ascii_of_string password) /\ upper c = true
  | NoLower => ~ exists c, In c (list_ascii_of_string password) /\ lower c = true
  | NoDigit => ~ exists c, In c (list_ascii_of_string password) /\ digit c = true
  | NoSpecial => ~ exists c, In c (list_ascii_of_string password) /\ special c = true
  end.

End Strength.

(** *** The auth library: the session cookie *)
Module Session.

(** Modelled from the spec: a cookie of the cookie store of [next/headers]
    (section 4.4: a client-held cookie with transport attributes and a
    lifetime). The value is the token. *)
Record Cookie : Type := {
  value : Token.Jwt;
  httpOnly : bool;
  secure : bool;
  sameSite : string;
  path : string;
  maxAge : Z;
}.

Definition TOKEN_NAME : string := "auth_token".

Section WithJws.
Context {J : Token.Jws}.

(** [setAuthCookie], with [production] the truth of
    [process.env.NODE_ENV === 'production']. The store is a map from
    names to cookies. *)
Definition setAuthCookie (production : bool) (token : Token.Jwt)
    (cookieStore : gmap string Cookie) : gmap string Cookie :=
  <[TOKEN_NAME := {| value := token; httpOnly := true; secure := production;
                     sameSite := "strict"; path := "/";
                     maxAge := (60 * 60 * 24)%Z |}]> cookieStore.

(** [getCurrentUser]: [None] is [null]. *)
Definition getCurrentUser (JWT_SECRET : list byte) (now : Z)
    (cookieStore : gmap string Cookie) : option Token.JwtPayload :=
  match value <$> cookieStore !! TOKEN_NAME with
  | None => None
  | Some token => Token.verifyToken JWT_SECRET now token
  end.

(** [clearAuthCookie] *)
Definition clearAuthCookie (cookieStore : gmap string Cookie) : gmap string Cookie :=
  delete TOKEN_NAME cookieStore.

End WithJws.
End Session.

(** *** The OTP route: the states a process can be in *)
Module Machine.
Import OtpRoute Call.

(** The worlds a process goes through: it starts with an empty [otpStore]
    over some account store and then serves calls of [POST], with any
    clock reading, random draw and body. *)
Inductive reachable {C : WebCrypto} : World -> Prop :=
  | reach_start (d : Database) :
      reachable {| otpStore := ∅; db := d |}
  | reach_step (w : World) (now : Z) (rnd : N) (body : option Body) :
      reachable w -> reachable (world (POST now rnd body w)).

End Machine.

(** *** Hexadecimal text *)
Module HexText.

(** The characters [toString(16)] produces: digits and the lower-case
    letters a to f. *)
Definition lower_hex (c : ascii) : bool :=
  Strength.in_range 48 57 c || Strength.in_range 97 102 c.

End HexText.

(** *** The database module *)
Module Db.

(** The client library and the schema: what the store answers to a
    statement depends on the statements sent before. The client library
    and the [SCHEMA] text are not part of the sources. *)
Class Libsql : Type := {
  Param : Type;
  Row : Type;
  Error : Type;
  SCHEMA : string;
  answer : list (string * list Param) -> string * list Param -> Error + list Row;
}.

(** A result or the exception thrown. *)
Inductive Res (E A : Type) : Type :=
  | Ok (a : A)
  | Fail (e : E).
Arguments Ok {E A} a.
Arguments Fail {E A} e.

(** The argument of [createClient]. *)
Record Config : Type := {
  url : string;
  authToken : option string;
}.

Section WithClient.
Context {L : Libsql}.

(** What the module works on: [process.env], the singleton [db] (a client
    is known by its configuration), the clients created so far and the
    statements sent so far, oldest first. *)
Record State : Type := {
  env : gmap string string;
  db : option Config;
  created : list Config;
  sent : list (string * list Param);
}.

(** Computations that may throw. *)
Definition D (A : Type) : Type := State -> Res Error A * State.

(** [db.execute(stmt)]: the statement is sent, the client answers. *)
Definition client_execute (stmt : string * list Param) : D (list Row) := fun s =>
  let s' := {| env := env s; db := db s; created := created s;
               sent := (sent s ++ [stmt])%list |} in
  match answer (sent s) stmt with
  | inr rows => (Ok rows, s')
  | inl e => (Fail e, s')
  end.

(** [initSchema]: nothing without a client; a failure is logged and
    swallowed. *)
Definition initSchema (s : State) : State :=
  match db s with
  | None => s
  | Some _ => snd (client_execute (SCHEMA, []) s)
  end.

(** The configuration [getDb] chooses from the environment. *)
Definition choose_config (e : gmap string string) : Config :=
  let tursoUrl := e !! "TURSO_DATABASE_URL" in
  let tursoToken := e !! "TURSO_AUTH_TOKEN" in
  if Js.truthy tursoUrl && Js.truthy tursoToken then
    {| url := default EmptyString tursoUrl; authToken := tursoToken |}
  else
    let dbPath := if Js.truthy (e !! "DATABASE_PATH")
                  then default EmptyString (e !! "DATABASE_PATH")
                  else "./data/td_logistics.db" in
    {| url := "file:" ++ dbPath; authToken := None |}.

(** [getDb] *)
Definition getDb (s : State) : Config * State :=
  match db s with
  | Some c => (c, s)
  | None =>
      let c := choose_config (env s) in
      let s1 := {| env := env s; db := Some c;
                   created := (created s ++ [c])%list; sent := sent s |} in
      (c, initSchema s1)
  end.


(** [queryOne]: the first row or [undefined]. *)
Definition queryOne (sql : string) (params : list Param) : D (option Row) := fun s =>
  let '(_, s1) := getDb s in
  match client_execute (sql, params) s1 with
  | (Ok rows, s2) => (Ok (head rows), s2)
  | (Fail e, s2) => (Fail e, s2)
  end.

(** [execute] *)
Definition execute (sql : string) (params : list Param) : D (list Row) := fun s =>
  let '(_, s1) := getDb s in
  client_execute (sql, params) s1.

(** [transaction] *)
Definition transaction {T : Type} (fn : D T) : D T := fun s =>
  let '(_, s1) := getDb s in
  match client_execute ("BEGIN", []) s1 with
  | (Fail e, s2) => (Fail e, s2)
  | (Ok _, s2) =>
      let attempt :=
        match fn s2 with
        | (Fail e, s3) => (Fail e, s3)
        | (Ok result, s3) =>
            match client_execute ("COMMIT", []) s3 with
            | (Fail e, s4) => (Fail e, s4)
            | (Ok _, s4) => (Ok result, s4)
            end
        end in
      match attempt with
      | (Ok result, s5) => (Ok result, s5)
      | (Fail error, s5) =>
          match client_execute ("ROLLBACK", []) s5 with
          | (Fail e, s6) => (Fail e, s6)
          | (Ok _, s6) => (Fail error, s6)
          end
      end
  end.

(** [closeDb] *)
Definition closeDb (s : State) : State :=
  match db s with
  | Some _ => {| env := env s; db := None; created := created s; sent := sent s |}
  | None => s
  end.

End WithClient.
End Db.

(** *** The upload route *)
Module Upload.

(** A [File] of the form data. *)
Record File : Type := {
  name : string;
  type : string;
  size : N;
}.

(** The form data: the [file] and [folder] fields, [None] when absent. *)
Record FormData : Type := {
  file : option File;
  folder : option string;
}.

Definition ALLOWED_TYPES : list string :=
  ["image/jpeg"; "image/png"; "image/gif"; "image/webp"; "image/svg+xml"].

Definition MAX_SIZE : N := 5 * 1024 * 1024.

(** The JSON responses of the handler. *)
Inductive Reply : Type :=
  (** 400, "No file provided" *)
  | NoFile
  (** 400, "Invalid file type" *)
  | InvalidType
  (** 400, "File too large" *)
  | TooLarge
  (** 501, "File upload is not available in edge runtime" *)
  | NotAvailable
  (** 500, "Failed to upload file": the [catch] block *)
  | Failed.

Definition status (r : Reply) : Z :=
  match r with
  | NoFile | InvalidType | TooLarge => 400
  | NotAvailable => 501
  | Failed => 500
  end.

(** [ALLOWED_TYPES.includes(t)] *)
Definition includes (l : list string) (t : string) : bool :=
  existsb (String.eqb t) l.

(** [POST]: [form] is the result of [request.formData()], [None] when it
    throws. A call that passes the checks logs the file name and the
    folder, ['logos'] unless the form names one; the file name it then
    makes up is not used. *)
Definition POST (form : option FormData) : Reply * list (string * string) :=
  match form with
  | None => (Failed, [])
  | Some formData =>
      let folder := if Js.truthy (folder formData)
                    then default EmptyString (folder formData) else "logos" in
      match file formData with
      | None => (NoFile, [])
      | Some file =>
          if negb (includes ALLOWED_TYPES (type file)) then (InvalidType, [])
          else if (MAX_SIZE <? size file)%N then (TooLarge, [])
          else (NotAvailable, [(name file, folder)])
      end
  end.

End Upload.

(** Concrete data for the examples of the database module. *)
Module DbFixture.

(** A stand-in for the store: it refuses the statement FAIL and answers
    every other statement with one row, the text of the statement. *)
#[local] Instance libsql : Db.Libsql := {|
  Db.Param := string;
  Db.Row := string;
  Db.Error := string;
  Db.SCHEMA := "CREATE TABLE IF NOT EXISTS users (id INTEGER)";
  Db.answer history stmt :=
    if String.eqb (fst stmt) "FAIL" then inl ("refused: " ++ fst stmt)
    else inr [fst stmt];
|}.

(** A process that has not used the database yet. *)
Definition no_client : Db.State (L := libsql) :=
  {| Db.env := ∅; Db.db := None; Db.created := []; Db.sent := [] |}.

End DbFixture.

(** * Properties *)

(** ** Strings, hexadecimal text and splitting *)
Module JsFacts.
Import Js Credential.

Lemma has_separator_cons (c : ascii) (s : string) :
  has_separator (String c s) <-> c = "$"%char \/ has_separator s.
Proof. unfold has_separator; simpl. intuition congruence. Qed.

Lemma has_separator_app (a b : string) :
  has_separator (a ++ b) <-> has_separator a \/ has_separator b.
Proof.
  induction a as [|c a IH].
  - change (EmptyString ++ b) with b. unfold has_separator at 2; simpl. tauto.
  - change (String c a ++ b) with (String c (a ++ b)).
    rewrite !has_separator_cons, IH. tauto.
Qed.

Lemma split_cons (sep : ascii) (s : string) :
  exists part parts, split sep s = part :: parts.
Proof.
  induction s as [|c s (part & parts & IH)]; simpl; [eauto|].
  destruct (Ascii.eqb c sep); [eauto|]. rewrite IH. eauto.
Qed.

Lemma split_no_separator (s : string) :
  ~ has_separator s -> split "$" s = [s].
Proof.
  induction s as [|c s IH]; [done|].
  rewrite has_separator_cons. intros Hno. simpl.
  destruct (Ascii.eqb_spec c "$") as [->|_]; [tauto|].
  rewrite IH by tauto. done.
Qed.

Lemma split_at_separator (a b : string) :
  ~ has_separator a -> split "$" (a ++ "$" ++ b) = a :: split "$" b.
Proof.
  induction a as [|c a IH]; [done|].
  rewrite has_separator_cons. intros Hno. simpl.
  destruct (Ascii.eqb_spec c "$") as [->|_]; [tauto|].
  rewrite IH by tauto. done.
Qed.

Lemma startsWith_legacy (rest : string) : startsWith "$2" ("$2" ++ rest) = true.
Proof. reflexivity. Qed.

Lemma startsWith_has_separator (s : string) :
  startsWith "$2" s = true -> has_separator s.
Proof.
  destruct s as [|c s]; [done|]. cbn [startsWith].
  destruct (Ascii.eqb_spec "$" c) as [<-|_]; [|done].
  intros _. apply has_separator_cons. by left.
Qed.

(** Every byte prints as two characters, neither of which is the
    separator or a line terminator. *)
Lemma hex_pair_shape (b : byte) :
  exists c1 c2,
    hex_pair b = String c1 (String c2 EmptyString) /\
    c1 <> "$"%char /\ c2 <> "$"%char /\
    is_line_terminator c1 = false /\ is_line_terminator c2 = false.
Proof. destruct b; do 2 eexists; (split; [reflexivity|]); done. Qed.

(** Parsing what a byte prints as gives the byte back. *)
Lemma hex_pair_parse (b : byte) : toUint8 (parseInt16 (hex_pair b)) = b.
Proof. destruct b; reflexivity. Qed.

Lemma hex_of_bytes_cons (b : byte) (l : list byte) :
  hex_of_bytes (b :: l) = hex_pair b ++ hex_of_bytes l.
Proof.
  unfold hex_of_bytes. simpl. destruct (map hex_pair l) eqn:E; simpl.
  - destruct (hex_pair_shape b) as (c1 & c2 & -> & _). done.
  - done.
Qed.

Lemma hex_of_bytes_no_separator (l : list byte) : ~ has_separator (hex_of_bytes l).
Proof.
  induction l as [|b l IH]; [by intros []|].
  rewrite hex_of_bytes_cons, has_separator_app.
  destruct (hex_pair_shape b) as (c1 & c2 & -> & H1 & H2 & _).
  rewrite !has_separator_cons. unfold has_separator at 1; simpl. tauto.
Qed.

Lemma hex_of_bytes_nonempty (l : list byte) :
  l <> [] -> truthy (Some (hex_of_bytes l)) = true.
Proof.
  destruct l as [|b l]; [done|]. intros _. rewrite hex_of_bytes_cons.
  destruct (hex_pair_shape b) as (c1 & c2 & -> & _). done.
Qed.

Lemma pairs_hex_of_bytes (l : list byte) : pairs (hex_of_bytes l) = map hex_pair l.
Proof.
  induction l as [|b l IH]; [done|].
  rewrite hex_of_bytes_cons.
  destruct (hex_pair_shape b) as (c1 & c2 & E & _ & _ & L1 & L2).
  cbn [map]. rewrite E.
  change (String c1 (String c2 EmptyString) ++ hex_of_bytes l)
    with (String c1 (String c2 (hex_of_bytes l))).
  cbn [pairs]. rewrite L1, L2. cbn [negb andb]. by rewrite IH.
Qed.

(** Decoding the hexadecimal text of a byte sequence, the way
    [verifyPassword] decodes the salt, gives the sequence back. *)
Lemma decode_hex_of_bytes (l : list byte) :
  map (fun byte => toUint8 (parseInt16 byte)) (pairs (hex_of_bytes l)) = l.
Proof.
  rewrite pairs_hex_of_bytes, map_map.
  induction l as [|b l IH]; simpl; [done|]. by rewrite hex_pair_parse, IH.
Qed.

Lemma hex_of_bytes_inj (l1 l2 : list byte) :
  hex_of_bytes l1 = hex_of_bytes l2 -> l1 = l2.
Proof.
  intros E. rewrite <- (decode_hex_of_bytes l1), <- (decode_hex_of_bytes l2).
  by rewrite E.
Qed.

Lemma match_pairs_hex_of_bytes (l : list byte) :
  l <> [] -> match_pairs (hex_of_bytes l) = Some (map hex_pair l).
Proof.
  intros Hl. unfold match_pairs. rewrite pairs_hex_of_bytes.
  destruct l; [done|]. done.
Qed.

End JsFacts.

(** ** Password hashing *)
Module AuthFacts.
Import Js Credential JsFacts.

Lemma fixture_crypto_spec : WebCryptoSpec Fixture.crypto.
Proof.
  split. intros salt iterations key. cbn [deriveBits_pbkdf2 Fixture.crypto].
  change (N.to_nat (256 / 8)) with 32%nat.
  rewrite length_take, !length_app, repeat_length. lia.
Qed.

Lemma getRandomValues_length (rnd : Entropy) (n : nat) :
  length (getRandomValues rnd n) = n.
Proof. unfold getRandomValues. by rewrite length_map, length_seq. Qed.

Lemma nonempty_of_length {A : Type} (l : list A) (n : nat) :
  length l = S n -> l <> [].
Proof. by destruct l. Qed.

Lemma not_legacy_without_separator (s : string) :
  ~ has_separator s -> startsWith "$2" s = false.
Proof.
  intros Hno. destruct (startsWith "$2" s) eqn:E; [|done].
  by apply startsWith_has_separator in E.
Qed.

Lemma not_legacy_hex_prefix (l : list byte) (s : string) :
  l <> [] -> startsWith "$2" (hex_of_bytes l ++ s) = false.
Proof.
  destruct l as [|b l]; [done|]. intros _. rewrite hex_of_bytes_cons.
  destruct (hex_pair_shape b) as (c1 & c2 & -> & H1 & _).
  change ((String c1 (String c2 EmptyString) ++ hex_of_bytes l) ++ s)
    with (String c1 ((String c2 EmptyString ++ hex_of_bytes l) ++ s)).
  cbn [startsWith].
  by destruct (Ascii.eqb_spec "$" c1) as [<-|_].
Qed.

Section WithCrypto.
Context {C : WebCrypto}.

(** A stored value without separator never verifies: the derived-key part
    is missing. *)
Lemma verifyPassword_no_separator (password stored : string) :
  ~ has_separator stored -> Auth.verifyPassword password stored = Returned false.
Proof.
  intros Hno. unfold Auth.verifyPassword, Auth.verifyPassword_try.
  rewrite not_legacy_without_separator, split_no_separator by done.
  cbn. by rewrite orb_true_r.
Qed.

(** What [verifyPassword] computes on a stored value made of the
    hexadecimal text of a salt and of a key. *)
Lemma verifyPassword_hex (password : string) (salt key : list byte) :
  salt <> [] -> key <> [] ->
  Auth.verifyPassword password (hex_of_bytes salt ++ "$" ++ hex_of_bytes key) =
  Returned (bool_decide
              (deriveBits_pbkdf2 salt 100000 (encode password) 256 = key)).
Proof.
  intros Hsalt Hkey. unfold Auth.verifyPassword, Auth.verifyPassword_try.
  rewrite not_legacy_hex_prefix by done.
  rewrite split_at_separator by apply hex_of_bytes_no_separator.
  rewrite split_no_separator by apply hex_of_bytes_no_separator.
  cbn [lookup list_lookup default]. unfold id.
  rewrite !hex_of_bytes_nonempty by done. cbn [negb orb].
  rewrite match_pairs_hex_of_bytes by done.
  rewrite <- pairs_hex_of_bytes, decode_hex_of_bytes. cbn [try_catch]. f_equal.
  case_bool_decide as Hd.
  - rewrite Hd. apply String.eqb_refl.
  - apply String.eqb_neq. intros Heq. by apply hex_of_bytes_inj in Heq.
Qed.

End WithCrypto.

(** C3: whatever password is tried, the auth library's [verifyPassword]
    answers [false] on a credential made by the OTP route's own
    [hashPassword], the hexadecimal SHA-256 digest: it has no separator, so
    its derived-key part is missing. *)
Theorem route_hash_never_verifies (C : WebCrypto) (p n : string) :
  Auth.verifyPassword p (OtpRoute.hashPassword n) = Returned false.
Proof. apply verifyPassword_no_separator, hex_of_bytes_no_separator. Qed.

(** C4: with any 16 random bytes as salt, a secret verifies against its
    own hash, and a different secret does not verify against it unless
    PBKDF2 derives the same key for both. *)
Theorem verify_hash_roundtrip (C : WebCrypto) (S : WebCryptoSpec C)
    (rnd : Entropy) (s1 : string) :
  Auth.verifyPassword s1 (Auth.hashPassword rnd s1) = Returned true /\
  forall s2 : string,
    s1 <> s2 ->
    deriveBits_pbkdf2 (getRandomValues rnd 16) 100000 (encode s2) 256 <>
    deriveBits_pbkdf2 (getRandomValues rnd 16) 100000 (encode s1) 256 ->
    Auth.verifyPassword s2 (Auth.hashPassword rnd s1) = Returned false.
Proof.
  assert (Hsalt : getRandomValues rnd 16 <> []).
  { apply (nonempty_of_length _ 15), getRandomValues_length. }
  assert (Hkey : forall s,
             deriveBits_pbkdf2 (getRandomValues rnd 16) 100000 (encode s) 256 <> []).
  { intros s. apply (nonempty_of_length _ 31), deriveBits_256. }
  unfold Auth.hashPassword. split.
  - rewrite verifyPassword_hex by done. by rewrite bool_decide_eq_true_2.
  - intros s2 _ Hne. rewrite verifyPassword_hex by done.
    by rewrite bool_decide_eq_false_2.
Qed.

Lemma verify_hash_roundtrip_witness :
  Auth.verifyPassword (C := Fixture.crypto) "NewP@ss1"
    (Auth.hashPassword (C := Fixture.crypto) Fixture.entropy "NewP@ss1")
    = Returned true /\
  Auth.verifyPassword (C := Fixture.crypto) "newp@ss1"
    (Auth.hashPassword (C := Fixture.crypto) Fixture.entropy "NewP@ss1")
    = Returned false.
Proof.
  destruct (verify_hash_roundtrip Fixture.crypto fixture_crypto_spec
              Fixture.entropy "NewP@ss1") as [Hsame Hother].
  split; [exact Hsame|]. apply Hother; [discriminate|]. vm_compute. discriminate.
Defined.

(** C8: on a stored value with the bcrypt prefix, or without its salt part
    or its derived-key part, [verifyPassword] returns [false]; it does not
    throw. *)
Theorem verify_legacy_or_malformed (C : WebCrypto) (secret stored : string) :
  legacy stored \/ malformed stored ->
  Auth.verifyPassword secret stored = Returned false.
Proof.
  intros [[rest ->]|Hbad].
  { unfold Auth.verifyPassword, Auth.verifyPassword_try.
    by rewrite startsWith_legacy. }
  destruct Hbad as [s Hno|rest|salt Hno|salt rest Hno].
  - by apply verifyPassword_no_separator.
  - unfold Auth.verifyPassword, Auth.verifyPassword_try.
    destruct (startsWith "$2" ("$" ++ rest)); [done|].
    change (split "$" ("$" ++ rest)) with (EmptyString :: split "$" rest).
    done.
  - unfold Auth.verifyPassword, Auth.verifyPassword_try.
    destruct (startsWith "$2" (salt ++ "$")); [done|].
    change (salt ++ "$") with (salt ++ "$" ++ EmptyString).
    rewrite split_at_separator by done. cbn. by rewrite orb_true_r.
  - unfold Auth.verifyPassword, Auth.verifyPassword_try.
    destruct (startsWith "$2" (salt ++ "$$" ++ rest)); [done|].
    change (salt ++ "$$" ++ rest) with (salt ++ "$" ++ "$" ++ rest).
    rewrite split_at_separator by done.
    change (split "$" ("$" ++ rest)) with (EmptyString :: split "$" rest).
    cbn. by rewrite orb_true_r.
Qed.

Lemma verify_legacy_or_malformed_witness :
  Auth.verifyPassword (C := Fixture.crypto) "secret" "$2b$10$N9qo8uLOickgx2ZMRZoMye"
    = Returned false /\
  Auth.verifyPassword (C := Fixture.crypto) "secret" "00ff$" = Returned false.
Proof.
  split.
  - apply (verify_legacy_or_malformed Fixture.crypto). left.
    by exists "b$10$N9qo8uLOickgx2ZMRZoMye".
  - apply (verify_legacy_or_malformed Fixture.crypto). right.
    apply (missing_key_at_end "00ff"). vm_compute. intuition discriminate.
Defined.

End AuthFacts.

(** ** Session tokens *)
Module TokenFacts.
Import Token.

(** C9: a token verifies to the claims it was issued for, together with
    the issue time, the expiry 24 hours later and the token id, as long as
    the time is before the expiry; from the expiry on it verifies to
    [null]. *)
Theorem token_roundtrip (J : Jws) (key : list byte) (issued now : Z)
    (uuid : string) (p : UserPayload) :
  let expiresAt := (issued + 24 * 60 * 60)%Z in
  let token := generateToken key issued uuid p in
  ((now < expiresAt)%Z ->
   verifyToken key now token =
   Some {| claims := p; iat := Some issued; exp := Some expiresAt;
           jti := Some uuid |}) /\
  ((expiresAt <= now)%Z -> verifyToken key now token = None).
Proof.
  intros expiresAt token. unfold verifyToken, jwtVerify.
  cbn [token generateToken sign setJti setExpirationTime setIssuedAt
       setProtectedHeader SignJWT alg payload signature exp claims iat jti].
  rewrite !bool_decide_eq_true_2 by done. cbn [negb].
  fold expiresAt. split; intros Hnow.
  - by rewrite (proj2 (Z.leb_gt _ _)) by done.
  - by rewrite (proj2 (Z.leb_le _ _)) by done.
Qed.

Lemma token_roundtrip_witness :
  verifyToken (J := Fixture.jws) [x01] 86399
    (generateToken (J := Fixture.jws) [x01] 0 "id-1" Fixture.visitor) =
  Some {| claims := Fixture.visitor; iat := Some 0%Z; exp := Some 86400%Z;
          jti := Some "id-1" |} /\
  verifyToken (J := Fixture.jws) [x01] 86400
    (generateToken (J := Fixture.jws) [x01] 0 "id-1" Fixture.visitor) = None.
Proof.
  split.
  - apply (token_roundtrip Fixture.jws [x01] 0 86399 "id-1" Fixture.visitor). lia.
  - apply (token_roundtrip Fixture.jws [x01] 0 86400 "id-1" Fixture.visitor). lia.
Defined.

End TokenFacts.

(** ** The OTP route *)
Module OtpFacts.
Import OtpRoute Call.

Lemma updates_app (t1 t2 : list Effect) :
  updates (t1 ++ t2)%list = (updates t1 ++ updates t2)%list.
Proof.
  induction t1 as [|[s|s|e o] t1 IH]; simpl; [done| |f_equal|]; done.
Qed.

(** *** Codes *)

Lemma pretty_N_go_nonempty (x : N) (s : string) :
  s <> "" -> pretty_N_go x s <> "".
Proof.
  revert s. induction (N.lt_wf_0 x) as [x _ IH]; intros s Hs.
  destruct (decide (x = 0)%N) as [->|Hx]; [by rewrite pretty_N_go_0|].
  rewrite pretty_N_go_step by lia. apply IH; [|done].
  apply N.div_lt; [lia|done].
Qed.

Lemma String_of_N_nonempty (n : N) : Js.String_of_N n <> "".
Proof.
  unfold Js.String_of_N, pretty, pretty_N. case_decide as Hn; [done|].
  rewrite pretty_N_go_step by lia. by apply pretty_N_go_nonempty.
Qed.

Lemma generateOTP_truthy (rnd : N) : Js.truthy (Some (generateOTP rnd)) = true.
Proof.
  pose proof (String_of_N_nonempty (100000 + toUint32 rnd mod 900000)) as H.
  unfold generateOTP. by destruct (Js.String_of_N _).
Qed.

Lemma truthy_nonempty (s : string) : s <> "" -> Js.truthy (Some s) = true.
Proof. by destruct s. Qed.

(** [generateOTP] is the decimal text of a number from 100000 to 999999. *)
Lemma generateOTP_range (rnd : N) :
  exists n : N, (100000 <= n <= 999999)%N /\ generateOTP rnd = Js.String_of_N n.
Proof.
  exists (100000 + toUint32 rnd mod 900000)%N. split; [|done].
  assert (toUint32 rnd mod 900000 < 900000)%N as H by (by apply N.mod_upper_bound).
  revert H. generalize (toUint32 rnd mod 900000)%N. intros m Hm. lia.
Qed.

Lemma div10_bounds (n a b : N) :
  (10 * a <= n < 10 * b)%N -> (a <= n `div` 10 < b)%N.
Proof.
  intros [Ha Hb]. split.
  - by apply N.div_le_lower_bound.
  - by apply N.Div0.div_lt_upper_bound.
Qed.

Lemma String_of_N_six_digits (n : N) :
  (100000 <= n < 1000000)%N -> String.length (Js.String_of_N n) = 6%nat.
Proof.
  intros H5. unfold Js.String_of_N, pretty, pretty_N.
  case_decide as H0; [lia|].
  pose proof (div10_bounds n 10000 100000 H5) as H4.
  pose proof (div10_bounds _ 1000 10000 H4) as H3.
  pose proof (div10_bounds _ 100 1000 H3) as H2.
  pose proof (div10_bounds _ 10 100 H2) as H1.
  pose proof (div10_bounds _ 1 10 H1) as H.
  do 6 (rewrite pretty_N_go_step by lia).
  by rewrite (N.div_small _ 10 (proj2 H)), pretty_N_go_0.
Qed.

(** Every code has six characters. *)
Lemma generateOTP_six_digits (rnd : N) : String.length (generateOTP rnd) = 6%nat.
Proof.
  apply String_of_N_six_digits.
  assert (toUint32 rnd mod 900000 < 900000)%N as H by (by apply N.mod_upper_bound).
  revert H. generalize (toUint32 rnd mod 900000)%N. intros m Hm. lia.
Qed.

(** *** The account store *)

Lemma head_rows_users (e : string) (d : Database) (row : UserRow) :
  In row (users d) -> email (user row) = e -> role row = "admin" ->
  is_Some (head (rows (SelectUser e "admin") d)).
Proof.
  intros Hin He Hr. apply head_is_Some. cbn [rows]. intros Hnil.
  assert (Hrow : In (user row) (map user (List.filter (user_matches e "admin") (users d)))).
  { apply in_map, filter_In. split; [done|].
    unfold user_matches. by rewrite He, Hr, !String.eqb_refl. }
  by rewrite Hnil in Hrow.
Qed.

Lemma head_rows_admin_users (e : string) (d : Database) (row : AdminUserRow) :
  In row (admin_users d) -> email (admin_user row) = e ->
  is_Some (head (rows (SelectAdminUser e) d)).
Proof.
  intros Hin He. apply head_is_Some. cbn [rows]. intros Hnil.
  assert (Hrow : In (admin_user row)
                   (map admin_user (List.filter (admin_matches e) (admin_users d)))).
  { apply in_map, filter_In. split; [done|].
    unfold admin_matches. by rewrite He, String.eqb_refl. }
  by rewrite Hnil in Hrow.
Qed.

(** An update leaves every row's address and role as they are, so the
    admin stays eligible. *)
Lemma eligible_apply (e : string) (s : Statement) (d : Database) :
  eligible e d -> eligible e (apply s d).
Proof.
  intros [He Hrow]. split; [done|].
  destruct s as [e' r|e'|h e' r|h e']; cbn [apply]; [done|done| |].
  - destruct Hrow as [(row & Hin & Hmail & Hrole)|Hadm]; [left|by right].
    cbn [users].
    eexists. split; [apply in_map, Hin|]. cbn beta.
    by destruct (user_matches e' r row).
  - destruct Hrow as [Husr|(row & Hin & Hmail)]; [by left|right].
    cbn [admin_users].
    eexists. split; [apply in_map, Hin|]. cbn beta.
    by destruct (admin_matches e' row).
Qed.

Section WithCrypto.
Context {C : WebCrypto}.

(** *** The checks in front of the switch *)

Lemma find_admin_eligible (e : string) (w : World) :
  eligible e (db w) ->
  exists t, updates t = [] /\ find_admin e w = (true, w, t).
Proof.
  intros [He Hrow]. unfold find_admin, queryOne, mbind, M_bind, mret, M_ret.
  destruct (head (rows (SelectUser e "admin") (db w))) as [u|] eqn:Eu.
  { eexists. split; [|reflexivity]. done. }
  destruct Hrow as [(row & Hin & Hmail & Hrole)|(row & Hin & Hmail)].
  { destruct (head_rows_users e (db w) row Hin Hmail Hrole) as [u Hu]. congruence. }
  destruct (head_rows_admin_users e (db w) row Hin Hmail) as [u Hu].
  rewrite Hu. eexists. split; [|reflexivity]. done.
Qed.

(** The handler past the address check, given what the lookups find. *)
Lemma POST_after_lookup (now : Z) (rnd : N) (b : Body) (w : World)
    (found : bool) (t : list Effect) :
  body_email b = Some ADMIN_EMAIL -> Js.truthy (action b) = true ->
  find_admin ADMIN_EMAIL w = (found, w, t) ->
  forall (m : M Reply),
    m = switch (default EmptyString (action b)) now rnd ADMIN_EMAIL b ->
    POST now rnd (Some b) w =
    if found then (reply (m w), world (m w), (t ++ effects (m w))%list)
    else (EmailNotRegistered, w, (t ++ [])%list).
Proof.
  intros Hmail Hact Hfind m Hm.
  unfold POST. rewrite Hmail, Hact.
  change (default EmptyString (Some ADMIN_EMAIL)) with ADMIN_EMAIL.
  change (Js.truthy (Some ADMIN_EMAIL)) with true.
  change (String.eqb ADMIN_EMAIL ADMIN_EMAIL) with true. cbn [negb orb].
  unfold mbind at 1, M_bind at 1. rewrite Hfind.
  destruct found; cbn [negb]; [|done].
  rewrite <- Hm. by destruct (m w) as [[r w'] t'].
Qed.

(** An eligible identity reaches the case of its action; the lookups in
    front send no update. *)
Lemma POST_eligible (now : Z) (rnd : N) (b : Body) (e : string) (w : World) :
  body_email b = Some e -> Js.truthy (action b) = true ->
  eligible e (db w) ->
  exists t, updates t = [] /\
    forall (m : M Reply),
      m = switch (default EmptyString (action b)) now rnd e b ->
      POST now rnd (Some b) w = (reply (m w), world (m w), (t ++ effects (m w))%list).
Proof.
  intros Hmail Hact He. destruct (find_admin_eligible e w He) as (t & Ht & Hfind).
  exists t. split; [done|]. intros m Hm. destruct He as [-> _].
  by rewrite (POST_after_lookup now rnd b w true t Hmail Hact Hfind m Hm).
Qed.

Lemma POST_request (now : Z) (rnd : N) (e : string) (w : World) :
  eligible e (db w) ->
  exists t, updates t = [] /\
    forall r w' t', request now rnd e w = (r, w', t') ->
      POST now rnd (request_call e) w = (r, w', (t ++ t')%list).
Proof.
  intros He. pose proof He as [-> _].
  destruct (POST_eligible now rnd
              {| action := Some "request"; body_email := Some ADMIN_EMAIL;
                 body_otp := None; newPassword := None |}
              ADMIN_EMAIL w eq_refl eq_refl He) as (t & Ht & Hpost).
  exists t. split; [done|]. intros r w' t' Hrun.
  unfold request_call. rewrite (Hpost _ eq_refl).
  change (switch _ now rnd ADMIN_EMAIL _ w) with (request now rnd ADMIN_EMAIL w).
  by rewrite Hrun.
Qed.

Lemma POST_verify (now : Z) (rnd : N) (e code : string) (w : World) :
  eligible e (db w) ->
  exists t, updates t = [] /\
    forall r w' t', verify now e (Some code) w = (r, w', t') ->
      POST now rnd (verify_call e code) w = (r, w', (t ++ t')%list).
Proof.
  intros He. pose proof He as [-> _].
  destruct (POST_eligible now rnd
              {| action := Some "verify"; body_email := Some ADMIN_EMAIL;
                 body_otp := Some code; newPassword := None |}
              ADMIN_EMAIL w eq_refl eq_refl He) as (t & Ht & Hpost).
  exists t. split; [done|]. intros r w' t' Hrun.
  unfold verify_call. rewrite (Hpost _ eq_refl).
  change (switch _ now rnd ADMIN_EMAIL _ w)
    with (verify now ADMIN_EMAIL (Some code) w).
  by rewrite Hrun.
Qed.

Lemma POST_changePassword (now : Z) (rnd : N) (e code newSecret : string)
    (w : World) :
  eligible e (db w) ->
  exists t, updates t = [] /\
    forall r w' t',
      changePassword now e (Some code) (Some newSecret) w = (r, w', t') ->
      POST now rnd (changePassword_call e code newSecret) w = (r, w', (t ++ t')%list).
Proof.
  intros He. pose proof He as [-> _].
  destruct (POST_eligible now rnd
              {| action := Some "changePassword"; body_email := Some ADMIN_EMAIL;
                 body_otp := Some code; newPassword := Some newSecret |}
              ADMIN_EMAIL w eq_refl eq_refl He) as (t & Ht & Hpost).
  exists t. split; [done|]. intros r w' t' Hrun.
  unfold changePassword_call. rewrite (Hpost _ eq_refl).
  change (switch _ now rnd ADMIN_EMAIL _ w)
    with (changePassword now ADMIN_EMAIL (Some code) (Some newSecret) w).
  by rewrite Hrun.
Qed.

(** *** The three cases *)

Lemma request_run (now : Z) (rnd : N) (e : string) (w : World) :
  request now rnd e w =
  (OtpSent,
   {| otpStore := <[e := fresh_challenge now rnd]> (otpStore w); db := db w |},
   [EmailLog e (generateOTP rnd)]).
Proof. reflexivity. Qed.

Lemma verify_missing_code (now : Z) (e : string) (w : World) :
  verify now e (Some "") w = (OtpRequired, w, []).
Proof. reflexivity. Qed.

Lemma verify_no_challenge (now : Z) (e code : string) (w : World) :
  code <> "" -> otpStore w !! e = None ->
  verify now e (Some code) w = (NoOtpRequested, w, []).
Proof.
  intros Hc Hw. unfold verify. rewrite truthy_nonempty by done. cbn [negb].
  unfold mbind, M_bind, otpStore_get. by rewrite Hw.
Qed.

Lemma verify_expired (now : Z) (e code : string) (w : World) (ent : OtpEntry) :
  code <> "" -> otpStore w !! e = Some ent -> (expires ent < now)%Z ->
  verify now e (Some code) w =
  (OtpExpired, {| otpStore := delete e (otpStore w); db := db w |}, []).
Proof.
  intros Hc Hw Ht. unfold verify. rewrite truthy_nonempty by done. cbn [negb].
  unfold mbind, M_bind, otpStore_get. rewrite Hw.
  by rewrite (proj2 (Z.gtb_lt _ _)) by done.
Qed.

Lemma verify_mismatch (now : Z) (e code : string) (w : World) (ent : OtpEntry) :
  code <> "" -> otpStore w !! e = Some ent -> (now <= expires ent)%Z ->
  code <> otp ent ->
  verify now e (Some code) w = (OtpIncorrect, w, []).
Proof.
  intros Hc Hw Ht Hne. unfold verify. rewrite truthy_nonempty by done. cbn [negb].
  unfold mbind, M_bind, otpStore_get. rewrite Hw.
  rewrite Z.gtb_ltb, (proj2 (Z.ltb_ge _ _)) by done.
  rewrite bool_decide_eq_false_2 by congruence. done.
Qed.

Lemma verify_match (now : Z) (e code : string) (w : World) (ent : OtpEntry) :
  code <> "" -> otpStore w !! e = Some ent -> (now <= expires ent)%Z ->
  otp ent = code ->
  verify now e (Some code) w =
  (OtpVerified,
   {| otpStore := <[e := {| otp := code; expires := expires ent;
                            verified := true |}]> (otpStore w);
      db := db w |},
   []).
Proof.
  intros Hc Hw Ht <-. unfold verify. rewrite truthy_nonempty by done. cbn [negb].
  unfold mbind, M_bind, otpStore_get. rewrite Hw.
  rewrite Z.gtb_ltb, (proj2 (Z.ltb_ge _ _)) by done.
  rewrite bool_decide_eq_true_2 by done. done.
Qed.

(** [verify] never sends a statement and never touches the account
    store. *)
Lemma verify_frame (now : Z) (e : string) (o : option string) (w : World) :
  effects (verify now e o w) = [] /\ db (world (verify now e o w)) = db w.
Proof.
  unfold verify. destruct (negb (Js.truthy o)); [done|].
  unfold mbind, M_bind, otpStore_get. destruct (otpStore w !! e) as [ent|]; [|done].
  destruct (now >? expires ent)%Z; [done|].
  by destruct (negb (bool_decide (Some (otp ent) = o))).
Qed.

Lemma changePassword_no_challenge (now : Z) (e code newSecret : string) (w : World) :
  otpStore w !! e = None ->
  reply (changePassword now e (Some code) (Some newSecret) w) ∈
    [IncompleteData; VerifyOtpFirst] /\
  (code <> "" -> newSecret <> "" ->
   changePassword now e (Some code) (Some newSecret) w = (VerifyOtpFirst, w, [])).
Proof.
  intros Hw. unfold changePassword.
  destruct code as [|c code], newSecret as [|p newSecret];
    cbn [Js.truthy negb orb]; try (split; [set_solver|done]).
  unfold mbind, M_bind, otpStore_get. rewrite Hw. split; [set_solver|done].
Qed.

Lemma changePassword_unverified (now : Z) (e code newSecret : string)
    (w : World) (ent : OtpEntry) :
  code <> "" -> newSecret <> "" ->
  otpStore w !! e = Some ent -> verified ent = false ->
  changePassword now e (Some code) (Some newSecret) w = (VerifyOtpFirst, w, []).
Proof.
  intros Hc Hp Hw Hv. unfold changePassword.
  rewrite !truthy_nonempty by done. cbn [negb orb].
  unfold mbind, M_bind, otpStore_get. by rewrite Hw, Hv.
Qed.

Lemma changePassword_expired (now : Z) (e code newSecret : string)
    (w : World) (ent : OtpEntry) :
  code <> "" -> newSecret <> "" ->
  otpStore w !! e = Some ent -> verified ent = true -> (expires ent < now)%Z ->
  changePassword now e (Some code) (Some newSecret) w =
  (SessionExpired, {| otpStore := delete e (otpStore w); db := db w |}, []).
Proof.
  intros Hc Hp Hw Hv Ht. unfold changePassword.
  rewrite !truthy_nonempty by done. cbn [negb orb].
  unfold mbind, M_bind, otpStore_get. rewrite Hw, Hv. cbn [negb].
  by rewrite (proj2 (Z.gtb_lt _ _)) by done.
Qed.

Lemma changePassword_match (now : Z) (e code newSecret : string)
    (w : World) (ent : OtpEntry) :
  code <> "" -> newSecret <> "" ->
  otpStore w !! e = Some ent -> verified ent = true -> (now <= expires ent)%Z ->
  otp ent = code ->
  changePassword now e (Some code) (Some newSecret) w =
  (PasswordChanged,
   {| otpStore := delete e (otpStore w);
      db := apply (UpdateAdminUser (hashPassword newSecret) e)
              (apply (UpdateUser (hashPassword newSecret) e "admin") (db w)) |},
   [Execute (UpdateUser (hashPassword newSecret) e "admin");
    Execute (UpdateAdminUser (hashPassword newSecret) e)]).
Proof.
  intros Hc Hp Hw Hv Ht <-. unfold changePassword.
  rewrite !truthy_nonempty by done. cbn [negb orb].
  unfold mbind, M_bind, otpStore_get. rewrite Hw, Hv. cbn [negb].
  rewrite Z.gtb_ltb, (proj2 (Z.ltb_ge _ _)) by done.
  rewrite bool_decide_eq_true_2 by done. done.
Qed.

(** What a [changePassword] that answers with success has done. *)
Lemma changePassword_success (now : Z) (e : string) (o p : option string)
    (w : World) :
  reply (changePassword now e o p w) = PasswordChanged ->
  exists newSecret,
    p = Some newSecret /\
    effects (changePassword now e o p w) =
      [Execute (UpdateUser (hashPassword newSecret) e "admin");
       Execute (UpdateAdminUser (hashPassword newSecret) e)] /\
    otpStore (world (changePassword now e o p w)) = delete e (otpStore w) /\
    db (world (changePassword now e o p w)) =
      apply (UpdateAdminUser (hashPassword newSecret) e)
        (apply (UpdateUser (hashPassword newSecret) e "admin") (db w)).
Proof.
  unfold changePassword.
  destruct (negb (Js.truthy o) || negb (Js.truthy p)) eqn:Hin; [done|].
  unfold mbind, M_bind, otpStore_get. destruct (otpStore w !! e) as [ent|]; [|done].
  destruct (negb (verified ent)); [done|].
  destruct (now >? expires ent)%Z; [done|].
  destruct (negb (bool_decide (Some (otp ent) = o))); [done|].
  intros _. destruct p as [newSecret|]; [|by rewrite orb_true_r in Hin].
  by exists newSecret.
Qed.

(** A [changePassword] that answers with a failure sends no statement and
    leaves the account store alone. *)
Lemma changePassword_failure (now : Z) (e : string) (o p : option string)
    (w : World) :
  reply (changePassword now e o p w) <> PasswordChanged ->
  effects (changePassword now e o p w) = [] /\
  db (world (changePassword now e o p w)) = db w.
Proof.
  unfold changePassword.
  destruct (negb (Js.truthy o) || negb (Js.truthy p)); [done|].
  unfold mbind, M_bind, otpStore_get. destruct (otpStore w !! e) as [ent|]; [|done].
  destruct (negb (verified ent)); [done|].
  destruct (now >? expires ent)%Z; [done|].
  by destruct (negb (bool_decide (Some (otp ent) = o))).
Qed.

(** *** The handler as a whole *)

Lemma find_admin_run (e : string) (w : World) :
  exists found t, find_admin e w = (found, w, t) /\ updates t = [].
Proof.
  unfold find_admin, queryOne, mbind, M_bind, mret, M_ret.
  destruct (head (rows (SelectUser e "admin") (db w))); by do 2 eexists.
Qed.

Lemma request_frame (now : Z) (rnd : N) (e : string) (w : World) :
  updates (effects (request now rnd e w)) = [] /\
  db (world (request now rnd e w)) = db w.
Proof. done. Qed.

(** Only the [changePassword] case answers with [PasswordChanged]. *)
Lemma switch_success (a : string) (now : Z) (rnd : N) (e : string) (b : Body)
    (w : World) :
  reply (switch a now rnd e b w) = PasswordChanged ->
  a = "changePassword" /\
  switch a now rnd e b w = changePassword now e (body_otp b) (newPassword b) w.
Proof.
  unfold switch.
  destruct (String.eqb_spec a "request") as [->|_]; [done|].
  destruct (String.eqb_spec a "verify") as [->|_].
  { intros Hr. exfalso. revert Hr. unfold verify.
    destruct (negb (Js.truthy (body_otp b))); [done|].
    unfold mbind, M_bind, otpStore_get.
    destruct (otpStore w !! e) as [ent|]; [|done].
    destruct (now >? expires ent)%Z; [done|].
    by destruct (negb (bool_decide (Some (otp ent) = body_otp b))). }
  destruct (String.eqb_spec a "changePassword") as [->|_]; done.
Qed.

(** Every other outcome of the [switch] leaves the account store alone. *)
Lemma switch_failure (a : string) (now : Z) (rnd : N) (e : string) (b : Body)
    (w : World) :
  reply (switch a now rnd e b w) <> PasswordChanged ->
  updates (effects (switch a now rnd e b w)) = [] /\
  db (world (switch a now rnd e b w)) = db w.
Proof.
  unfold switch.
  destruct (String.eqb_spec a "request") as [->|_]; [done|].
  destruct (String.eqb_spec a "verify") as [->|_].
  { intros _. destruct (verify_frame now e (body_otp b) w) as [-> ->]. done. }
  destruct (String.eqb_spec a "changePassword") as [->|_]; [|done].
  intros Hr. destruct (changePassword_failure now e _ _ w Hr) as [-> ->]. done.
Qed.

(** The handler either stops in front of the [switch], having changed
    nothing, or runs the [switch] for the admin address. *)
Lemma POST_run (now : Z) (rnd : N) (body : option Body) (w : World) :
  (reply (POST now rnd body w) <> PasswordChanged /\
   updates (effects (POST now rnd body w)) = [] /\
   world (POST now rnd body w) = w) \/
  (exists b t,
     body = Some b /\ body_email b = Some ADMIN_EMAIL /\
     Js.truthy (action b) = true /\ updates t = [] /\
     POST now rnd body w =
     (reply (switch (default EmptyString (action b)) now rnd ADMIN_EMAIL b w),
      world (switch (default EmptyString (action b)) now rnd ADMIN_EMAIL b w),
      (t ++ effects (switch (default EmptyString (action b)) now rnd
                       ADMIN_EMAIL b w))%list)).
Proof.
  destruct body as [b|]; [|by left].
  destruct (Js.truthy (action b)) eqn:Ha.
  2: { left. unfold POST. by rewrite Ha. }
  destruct (Js.truthy (body_email b)) eqn:Hm.
  2: { left. unfold POST. by rewrite Ha, Hm. }
  destruct (body_email b) as [e|] eqn:Hmail; [|done].
  destruct (String.eqb_spec e ADMIN_EMAIL) as [->|Hne].
  2: { left. unfold POST. rewrite Ha, Hmail, Hm. cbn [negb orb].
       change (default EmptyString (Some e)) with e.
       by rewrite (proj2 (String.eqb_neq _ _)) by done. }
  destruct (find_admin_run ADMIN_EMAIL w) as (found & t & Hfind & Ht).
  rewrite (POST_after_lookup now rnd b w found t Hmail Ha Hfind _ eq_refl).
  destruct found.
  - right. by exists b, t.
  - left. cbn. by rewrite app_nil_r.
Qed.

(** The lookups answer [true] only for an address one of the tables
    has. *)
Lemma find_admin_found (e : string) (w : World) (t : list Effect) :
  find_admin e w = (true, w, t) ->
  (exists row, In row (users (db w)) /\ email (user row) = e /\ role row = "admin") \/
  (exists row, In row (admin_users (db w)) /\ email (admin_user row) = e).
Proof.
  unfold find_admin, queryOne, mbind, M_bind, mret, M_ret.
  destruct (head (rows (SelectUser e "admin") (db w))) as [u|] eqn:Eu.
  - intros _. left. apply head_Some in Eu as [l Hl]. cbn [rows] in Hl.
    assert (Hin : In u (map user (List.filter (user_matches e "admin") (users (db w)))))
      by (rewrite Hl; by left).
    apply in_map_iff in Hin as (row & _ & Hrow).
    apply filter_In in Hrow as [Hrow Hm]. exists row. split; [done|].
    unfold user_matches in Hm. apply andb_prop in Hm as [Hmail Hrole].
    by apply String.eqb_eq in Hmail, Hrole.
  - destruct (head (rows (SelectAdminUser e) (db w))) as [u|] eqn:Ea.
    + intros _. right. apply head_Some in Ea as [l Hl]. cbn [rows] in Hl.
      assert (Hin : In u (map admin_user
                            (List.filter (admin_matches e) (admin_users (db w)))))
        by (rewrite Hl; by left).
      apply in_map_iff in Hin as (row & _ & Hrow).
      apply filter_In in Hrow as [Hrow Hm]. exists row. split; [done|].
      by apply String.eqb_eq in Hm.
    + cbn. by intros [=].
Qed.

(** The eligible identities are exactly those whose request is accepted. *)
Lemma request_accepted_iff_eligible (now : Z) (rnd : N) (e : string) (w : World) :
  reply (POST now rnd (request_call e) w) = OtpSent <-> eligible e (db w).
Proof.
  split.
  - intros Hok. destruct (String.eqb_spec e ADMIN_EMAIL) as [->|Hne].
    + split; [done|].
      destruct (find_admin_run ADMIN_EMAIL w) as (found & t & Hfind & _).
      destruct found; [by apply (find_admin_found _ _ t)|].
      exfalso. revert Hok. unfold request_call.
      rewrite (POST_after_lookup now rnd
                 {| action := Some "request"; body_email := Some ADMIN_EMAIL;
                    body_otp := None; newPassword := None |}
                 w false t eq_refl eq_refl Hfind _ eq_refl).
      done.
    + exfalso. revert Hok. unfold request_call, POST.
      cbn [action body_email Js.truthy negb orb].
      destruct e as [|c e]; [done|]. cbn [Js.truthy negb orb].
      change (default EmptyString (Some (String c e))) with (String c e).
      by rewrite (proj2 (String.eqb_neq _ _)) by done.
  - intros He. destruct (POST_request now rnd e w He) as (t & _ & E).
    by rewrite (E _ _ _ (request_run now rnd e w)).
Qed.

(** No call of the handler makes an eligible identity ineligible. *)
Lemma POST_preserves_eligible (now : Z) (rnd : N) (body : option Body)
    (e : string) (w : World) :
  eligible e (db w) -> eligible e (db (world (POST now rnd body w))).
Proof.
  intros He.
  destruct (POST_run now rnd body w)
    as [(_ & _ & ->)|(b & t & -> & Hmail & Ha & Ht & Heq)]; [done|].
  rewrite Heq. unfold world at 1. cbn [fst snd].
  set (m := switch (default EmptyString (action b)) now rnd ADMIN_EMAIL b w).
  destruct (decide (reply m = PasswordChanged)) as [Hok|Hko].
  - subst m. destruct (switch_success _ _ _ _ _ _ Hok) as [_ Hsw].
    rewrite Hsw in Hok |- *.
    destruct (changePassword_success _ _ _ _ _ Hok) as (n & _ & _ & _ & ->).
    by do 2 apply eligible_apply.
  - subst m. destruct (switch_failure _ _ _ _ _ _ Hko) as [_ ->]. done.
Qed.

End WithCrypto.

(** *** The fixture *)

Lemma fixture_eligible : eligible ADMIN_EMAIL (db Fixture.start).
Proof.
  split; [done|]. left. exists Fixture.admin_row.
  split; [by left|]. done.
Qed.

Lemma pbkdf2_format_has_separator (s : string) :
  Credential.pbkdf2_format s -> Credential.has_separator s.
Proof.
  intros (salt & key & _ & _ & ->).
  apply JsFacts.has_separator_app. right.
  apply JsFacts.has_separator_app. left.
  apply JsFacts.has_separator_cons. by left.
Qed.

Lemma library_hash_has_separator (C : WebCrypto) (rnd : Entropy) (s : string) :
  Credential.has_separator (Auth.hashPassword rnd s).
Proof.
  unfold Auth.hashPassword.
  apply JsFacts.has_separator_app. right.
  apply JsFacts.has_separator_app. left.
  apply JsFacts.has_separator_cons. by left.
Qed.

(** *** Changing the password *)

(** C1: at a verified, live challenge the route's [changePassword]
    succeeds and writes the hexadecimal SHA-256 digest of the new password
    to both tables. That value is not in the salt$derivedKey format of
    section 4.1, differs from every hash the auth library's [hashPassword]
    can make, and the library's [verifyPassword] rejects the new password
    against it. *)
Theorem change_stores_unsalted_digest (C : WebCrypto) :
  let w1 := world (POST 0 0 (request_call ADMIN_EMAIL) Fixture.start) in
  let w2 := world (POST 10 0 (verify_call ADMIN_EMAIL "100000") w1) in
  let out := POST 20 0 (changePassword_call ADMIN_EMAIL "100000" "NewP@ss1") w2 in
  let stored := Js.hex_of_bytes (digest_sha256 (encode "NewP@ss1")) in
  reply out = PasswordChanged /\
  updates (effects out) =
    [UpdateUser stored ADMIN_EMAIL "admin"; UpdateAdminUser stored ADMIN_EMAIL] /\
  map (fun row => password_hash (user row)) (users (db (world out))) = [stored] /\
  ~ Credential.pbkdf2_format stored /\
  (forall rnd : Entropy, stored <> Auth.hashPassword rnd "NewP@ss1") /\
  Auth.verifyPassword "NewP@ss1" stored = Returned false.
Proof.
  intros w1 w2 out stored.
  assert (Hno : ~ Credential.has_separator stored)
    by apply JsFacts.hex_of_bytes_no_separator.
  repeat split.
  - intros Hf. by apply Hno, pbkdf2_format_has_separator.
  - intros rnd Heq. apply Hno. rewrite Heq. apply library_hash_has_separator.
  - by apply AuthFacts.verifyPassword_no_separator.
Qed.

(** The statement of the design document about the stored format fails. *)
Lemma change_does_not_store_library_hash : ~ AsStated.change_stores_library_hash.
Proof.
  intros Hclaim.
  pose (w2 := world (POST (C := Fixture.crypto) 10 0 (verify_call ADMIN_EMAIL "100000")
            (world (POST (C := Fixture.crypto) 0 0 (request_call ADMIN_EMAIL)
                      Fixture.start)))).
  destruct (Hclaim Fixture.crypto w2 20%Z 0%N ADMIN_EMAIL "100000" "NewP@ss1" eq_refl)
    as (h & Hup & Hfmt).
  apply pbkdf2_format_has_separator in Hfmt.
  vm_compute in Hup. injection Hup as <- _.
  vm_compute in Hfmt. intuition discriminate.
Qed.

(** Whatever the platform's cryptography, the successful call of the
    fixture sends two statements to [execute]. *)
Lemma two_updates_run (C : WebCrypto) :
  let w1 := world (POST 0 0 (request_call ADMIN_EMAIL) Fixture.start) in
  let w2 := world (POST 10 0 (verify_call ADMIN_EMAIL "100000") w1) in
  let out := POST 20 0 (changePassword_call ADMIN_EMAIL "100000" "NewP@ss1") w2 in
  reply out = PasswordChanged /\ length (updates (effects out)) = 2%nat.
Proof. split; reflexivity. Qed.

(** C10, as stated, fails: the successful call of the fixture sends two
    statements to [execute], not one. *)
Lemma two_updates_counterexample : ~ AsStated.one_update_per_change.
Proof.
  intros Hclaim. destruct (two_updates_run Fixture.crypto) as [Hok Htwo].
  cbv zeta in Hok, Htwo. rewrite (Hclaim Fixture.crypto _ _ _ _ Hok) in Htwo.
  discriminate.
Qed.

(** C10, amended: a successful [changePassword] sends exactly two updates
    with one and the same hash, first to the [users] table for the admin
    role and then to the [admin_users] table; [rnd] plays no part. *)
Theorem two_updates_per_change (C : WebCrypto) (w : World) (now : Z) (rnd : N)
    (body : option Body) :
  reply (POST now rnd body w) = PasswordChanged ->
  exists b newSecret,
    body = Some b /\ newPassword b = Some newSecret /\
    updates (effects (POST now rnd body w)) =
    [UpdateUser (hashPassword newSecret) ADMIN_EMAIL "admin";
     UpdateAdminUser (hashPassword newSecret) ADMIN_EMAIL].
Proof.
  intros Hok.
  destruct (POST_run now rnd body w) as [[Hno _]|(b & t & -> & Hmail & Ha & Ht & Heq)];
    [done|].
  rewrite Heq in Hok |- *. unfold reply, effects in *. cbn [fst snd] in *.
  destruct (switch_success _ _ _ _ _ _ Hok) as [_ Hsw]. rewrite Hsw in Hok |- *.
  destruct (changePassword_success _ _ _ _ _ Hok) as (newSecret & Hp & Heff & _ & _).
  exists b, newSecret. split; [done|]. split; [done|].
  fold (effects (changePassword now ADMIN_EMAIL (body_otp b) (newPassword b) w)).
  by rewrite updates_app, Ht, Heff.
Qed.

Lemma two_updates_per_change_witness :
  exists newSecret,
    updates (effects (POST (C := Fixture.crypto) 20 0
                        (changePassword_call ADMIN_EMAIL "100000" "NewP@ss1")
                        (world (POST (C := Fixture.crypto) 10 0
                                  (verify_call ADMIN_EMAIL "100000")
                                  (world (POST (C := Fixture.crypto) 0 0
                                            (request_call ADMIN_EMAIL)
                                            Fixture.start)))))) =
    [UpdateUser (hashPassword (C := Fixture.crypto) newSecret) ADMIN_EMAIL "admin";
     UpdateAdminUser (hashPassword (C := Fixture.crypto) newSecret) ADMIN_EMAIL].
Proof.
  destruct (two_updates_per_change Fixture.crypto
              (world (POST (C := Fixture.crypto) 10 0
                        (verify_call ADMIN_EMAIL "100000")
                        (world (POST (C := Fixture.crypto) 0 0
                                  (request_call ADMIN_EMAIL) Fixture.start))))
              20%Z 0%N (changePassword_call ADMIN_EMAIL "100000" "NewP@ss1")
              eq_refl) as (b & newSecret & _ & _ & Hup).
  by exists newSecret.
Defined.

(** A call that does not answer [PasswordChanged] sends no update and
    leaves the account store as it was. *)
Lemma no_update_without_success (C : WebCrypto) (w : World) (now : Z) (rnd : N)
    (body : option Body) :
  reply (POST now rnd body w) <> PasswordChanged ->
  updates (effects (POST now rnd body w)) = [] /\
  db (world (POST now rnd body w)) = db w.
Proof.
  intros Hko.
  destruct (POST_run now rnd body w)
    as [(_ & Hup & ->)|(b & t & -> & Hmail & Ha & Ht & Heq)]; [done|].
  rewrite Heq in Hko |- *. unfold reply, effects, world in *. cbn [fst snd] in *.
  destruct (switch_failure _ _ _ _ _ _ Hko) as [Hup Hdb].
  unfold effects, world in *. by rewrite updates_app, Ht, Hup, Hdb.
Qed.

(** *** The life of a challenge *)

(** C5: for an identity that passes the checks, a request, a verify with
    the issued code and a changePassword with that code and a new
    password, all within the ten minutes of the challenge, succeed in turn;
    the last one removes the challenge, so a second changePassword with the
    same code fails with NotVerified, sends no update and changes
    nothing. *)
Theorem lifecycle_consumes_challenge (C : WebCrypto) (w : World) (e : string)
    (t0 tv tc tc' : Z) (r0 rv rc rc' : N) (newSecret : string) :
  eligible e (db w) ->
  (tv <= t0 + 600000)%Z -> (tc <= t0 + 600000)%Z ->
  newSecret <> "" ->
  let code := generateOTP r0 in
  let s1 := POST t0 r0 (request_call e) w in
  let s2 := POST tv rv (verify_call e code) (world s1) in
  let s3 := POST tc rc (changePassword_call e code newSecret) (world s2) in
  let s4 := POST tc' rc' (changePassword_call e code newSecret) (world s3) in
  (reply s1 = OtpSent /\ otpStore (world s1) !! e = Some (fresh_challenge t0 r0)) /\
  (reply s2 = OtpVerified /\
   otpStore (world s2) !! e =
     Some {| otp := code; expires := (t0 + 600000)%Z; verified := true |}) /\
  (reply s3 = PasswordChanged /\ otpStore (world s3) !! e = None /\
   updates (effects s3) =
     [UpdateUser (hashPassword newSecret) e "admin";
      UpdateAdminUser (hashPassword newSecret) e]) /\
  (failure (reply s4) = Some NotVerified /\ updates (effects s4) = [] /\
   world s4 = world s3).
Proof.
  intros He Hv Hc Hp code s1 s2 s3 s4.
  assert (Hcode : code <> "").
  { intros Hempty. pose proof (generateOTP_truthy r0) as Ht.
    fold code in Ht. by rewrite Hempty in Ht. }
  (* request *)
  destruct (POST_request t0 r0 e w He) as (t1 & Ht1 & E1).
  specialize (E1 _ _ _ (request_run t0 r0 e w)). fold s1 in E1.
  assert (H1 : otpStore (world s1) !! e = Some (fresh_challenge t0 r0)).
  { rewrite E1. apply lookup_insert_eq. }
  assert (He1 : eligible e (db (world s1))) by (by rewrite E1).
  (* verify *)
  destruct (POST_verify tv rv e code (world s1) He1) as (t2 & Ht2 & E2).
  specialize (E2 _ _ _ (verify_match tv e code (world s1) _ Hcode H1 Hv eq_refl)).
  fold s2 in E2. cbn [fresh_challenge expires] in E2.
  assert (H2 : otpStore (world s2) !! e =
               Some {| otp := code; expires := (t0 + 600000)%Z; verified := true |}).
  { rewrite E2. apply lookup_insert_eq. }
  assert (He2 : eligible e (db (world s2))) by (by rewrite E2).
  (* changePassword *)
  destruct (POST_changePassword tc rc e code newSecret (world s2) He2)
    as (t3 & Ht3 & E3).
  specialize (E3 _ _ _ (changePassword_match tc e code newSecret (world s2) _
                          Hcode Hp H2 eq_refl Hc eq_refl)).
  fold s3 in E3.
  assert (H3 : otpStore (world s3) !! e = None).
  { rewrite E3. apply lookup_delete_eq. }
  assert (He3 : eligible e (db (world s3))).
  { rewrite E3. cbn [world fst snd db]. by do 2 apply eligible_apply. }
  (* changePassword again *)
  destruct (POST_changePassword tc' rc' e code newSecret (world s3) He3)
    as (t4 & Ht4 & E4).
  destruct (changePassword_no_challenge tc' e code newSecret (world s3) H3)
    as [_ Hagain].
  specialize (E4 _ _ _ (Hagain Hcode Hp)). fold s4 in E4.
  repeat split.
  - by rewrite E1.
  - done.
  - by rewrite E2.
  - done.
  - by rewrite E3.
  - done.
  - rewrite E3. unfold effects. cbn [snd]. by rewrite updates_app, Ht3.
  - by rewrite E4.
  - rewrite E4. unfold effects. cbn [snd]. by rewrite app_nil_r.
  - by rewrite E4.
Qed.

Lemma lifecycle_consumes_challenge_witness :
  let s1 := POST (C := Fixture.crypto) 0 0 (request_call ADMIN_EMAIL) Fixture.start in
  let s2 := POST (C := Fixture.crypto) 10 1 (verify_call ADMIN_EMAIL "100000") (world s1) in
  let s3 := POST (C := Fixture.crypto) 20 2
              (changePassword_call ADMIN_EMAIL "100000" "NewP@ss1") (world s2) in
  let s4 := POST (C := Fixture.crypto) 30 3
              (changePassword_call ADMIN_EMAIL "100000" "NewP@ss1") (world s3) in
  reply s3 = PasswordChanged /\ failure (reply s4) = Some NotVerified /\
  updates (effects s4) = [].
Proof.
  pose proof (lifecycle_consumes_challenge Fixture.crypto Fixture.start ADMIN_EMAIL
                0 10 20 30 0 1 2 3 "NewP@ss1" fixture_eligible) as H.
  cbv zeta in H.
  destruct H as (_ & _ & (H3 & _) & (H4 & H4' & _)); [lia|lia|discriminate|].
  exact (conj H3 (conj H4 H4')).
Defined.

(** A successful [changePassword] needs a stored challenge. *)
Lemma changePassword_success_entry (C : WebCrypto) (now : Z) (e : string)
    (o p : option string) (w : World) :
  reply (changePassword now e o p w) = PasswordChanged ->
  exists ent, otpStore w !! e = Some ent /\ verified ent = true /\
              (now <= expires ent)%Z /\ Some (otp ent) = o.
Proof.
  unfold changePassword.
  destruct (negb (Js.truthy o) || negb (Js.truthy p)); [done|].
  unfold mbind, M_bind, otpStore_get. destruct (otpStore w !! e) as [ent|]; [|done].
  destruct (verified ent) eqn:Hv; [|done]. cbn [negb].
  destruct (now >? expires ent)%Z eqn:Ht; [done|].
  case_bool_decide as Ho; [|done]. intros _. exists ent.
  rewrite Z.gtb_ltb in Ht. apply Z.ltb_ge in Ht. done.
Qed.

(** Once a [changePassword] has succeeded, the next call of the handler,
    whatever it is, does not change the password again: the challenge is
    gone. *)
Lemma consumed_challenge_is_gone (C : WebCrypto) (w : World) (now now' : Z)
    (rnd rnd' : N) (body body' : option Body) :
  reply (POST now rnd body w) = PasswordChanged ->
  otpStore (world (POST now rnd body w)) !! ADMIN_EMAIL = None /\
  reply (POST now' rnd' body' (world (POST now rnd body w))) <> PasswordChanged.
Proof.
  intros Hok.
  assert (Hgone : otpStore (world (POST now rnd body w)) !! ADMIN_EMAIL = None).
  { destruct (POST_run now rnd body w)
      as [[Hno _]|(b & t & -> & Hmail & Ha & Ht & Heq)]; [done|].
    rewrite Heq in Hok |- *. unfold reply, world in *. cbn [fst snd] in *.
    destruct (switch_success _ _ _ _ _ _ Hok) as [_ Hsw]. rewrite Hsw in Hok |- *.
    destruct (changePassword_success _ _ _ _ _ Hok) as (n & _ & _ & Hstore & _).
    unfold world in Hstore. rewrite Hstore. apply lookup_delete_eq. }
  split; [done|]. intros Hagain.
  destruct (POST_run now' rnd' body' (world (POST now rnd body w)))
    as [[Hno _]|(b & t & -> & Hmail & Ha & Ht & Heq)]; [done|].
  rewrite Heq in Hagain. unfold reply at 1 in Hagain. cbn [fst] in Hagain.
  destruct (switch_success _ _ _ _ _ _ Hagain) as [_ Hsw]. rewrite Hsw in Hagain.
  destruct (changePassword_success_entry _ _ _ _ _ _ Hagain) as (ent & Hent & _).
  congruence.
Qed.

(** *** Expiry *)

(** Whatever the platform's cryptography: a challenge requested at time 0
    and never verified is still stored after a [changePassword] at time
    600001, which answers "verify first". *)
Lemma expired_unverified_run (C : WebCrypto) :
  let w1 := world (POST 0 0 (request_call ADMIN_EMAIL) Fixture.start) in
  let c := POST 600001 0 (changePassword_call ADMIN_EMAIL "100000" "NewP@ss1") w1 in
  otpStore w1 !! ADMIN_EMAIL = Some (fresh_challenge 0 0) /\
  reply c = VerifyOtpFirst /\
  otpStore (world c) !! ADMIN_EMAIL = Some (fresh_challenge 0 0).
Proof. repeat split; reflexivity. Qed.

(** C2, as stated, fails: an expired challenge that was never verified
    makes [changePassword] answer "verify first" and stay in the store. *)
Lemma expired_unverified_counterexample : ~ AsStated.expired_challenge_always_Expired.
Proof.
  intros Hclaim.
  destruct (expired_unverified_run Fixture.crypto) as (Hw1 & Hreply & _).
  cbv zeta in Hw1, Hreply.
  destruct (Hclaim Fixture.crypto
              (world (POST (C := Fixture.crypto) 0 0 (request_call ADMIN_EMAIL)
                        Fixture.start))
              ADMIN_EMAIL (fresh_challenge 0 0)
              600001%Z 0%N "100000" "NewP@ss1" fixture_eligible Hw1)
    as (_ & _ & Hc & _); [done|done|done|].
  rewrite Hreply in Hc. discriminate.
Qed.

(** C2, amended: past the expiry of the stored challenge, a [verify] with
    a code fails with Expired and removes the entry; a [changePassword]
    with a code and a new password does the same when the challenge was
    verified, and fails with NotVerified, changing nothing, when it was
    not; a request after the removal stores a new challenge. *)
Theorem expired_challenge (C : WebCrypto) (w : World) (e : string) (ent : OtpEntry)
    (now later : Z) (rnd rnd' : N) (code newSecret : string) :
  eligible e (db w) ->
  otpStore w !! e = Some ent ->
  (expires ent < now)%Z ->
  code <> "" -> newSecret <> "" ->
  let v := POST now rnd (verify_call e code) w in
  let c := POST now rnd (changePassword_call e code newSecret) w in
  (failure (reply v) = Some Expired /\
   world v = {| otpStore := delete e (otpStore w); db := db w |}) /\
  (verified ent = true ->
   failure (reply c) = Some Expired /\
   world c = {| otpStore := delete e (otpStore w); db := db w |}) /\
  (verified ent = false ->
   failure (reply c) = Some NotVerified /\ world c = w) /\
  otpStore (world (POST later rnd' (request_call e) (world v))) !! e =
    Some (fresh_challenge later rnd').
Proof.
  intros He Hw Ht Hc Hp v c.
  destruct (POST_verify now rnd e code w He) as (t1 & _ & E1).
  specialize (E1 _ _ _ (verify_expired now e code w ent Hc Hw Ht)). fold v in E1.
  destruct (POST_changePassword now rnd e code newSecret w He) as (t2 & _ & E2).
  assert (Hev : eligible e (db (world v))) by (by rewrite E1).
  destruct (POST_request later rnd' e (world v) Hev) as (t3 & _ & E3).
  specialize (E3 _ _ _ (request_run later rnd' e (world v))).
  repeat split.
  - by rewrite E1.
  - by rewrite E1.
  - specialize (E2 _ _ _ (changePassword_expired now e code newSecret w ent
                            Hc Hp Hw H Ht)).
    fold c in E2. by rewrite E2.
  - specialize (E2 _ _ _ (changePassword_expired now e code newSecret w ent
                            Hc Hp Hw H Ht)).
    fold c in E2. by rewrite E2.
  - specialize (E2 _ _ _ (changePassword_unverified now e code newSecret w ent
                            Hc Hp Hw H)).
    fold c in E2. by rewrite E2.
  - specialize (E2 _ _ _ (changePassword_unverified now e code newSecret w ent
                            Hc Hp Hw H)).
    fold c in E2. by rewrite E2.
  - rewrite E3. apply lookup_insert_eq.
Qed.

Lemma expired_challenge_witness :
  let w1 := world (POST (C := Fixture.crypto) 0 0 (request_call ADMIN_EMAIL)
                     Fixture.start) in
  let v := POST (C := Fixture.crypto) 600001 0 (verify_call ADMIN_EMAIL "100000") w1 in
  failure (reply v) = Some Expired /\
  otpStore (world v) !! ADMIN_EMAIL = None /\
  otpStore (world (POST (C := Fixture.crypto) 600002 7 (request_call ADMIN_EMAIL)
                     (world v))) !! ADMIN_EMAIL =
    Some (fresh_challenge 600002 7).
Proof.
  pose proof (expired_challenge Fixture.crypto
                (world (POST (C := Fixture.crypto) 0 0 (request_call ADMIN_EMAIL)
                          Fixture.start))
                ADMIN_EMAIL (fresh_challenge 0 0) 600001 600002 0 7
                "100000" "NewP@ss1" fixture_eligible eq_refl) as H.
  cbv zeta in H.
  destruct H as ((Hr & Hw) & _ & _ & Hnew); [done|discriminate|discriminate|].
  refine (conj Hr (conj _ Hnew)).
  rewrite Hw. apply lookup_delete_eq.
Defined.

(** *** Requesting again *)

(** Whatever the platform's cryptography: the random words 0 and 900000
    give the same code, and after the two requests that code verifies. *)
Lemma same_code_run (C : WebCrypto) :
  let w1 := world (POST 0 0 (request_call ADMIN_EMAIL) Fixture.start) in
  let w2 := world (POST 1 900000 (request_call ADMIN_EMAIL) w1) in
  generateOTP 0 = "100000" /\ generateOTP 900000 = "100000" /\
  reply (POST 2 0 (verify_call ADMIN_EMAIL (generateOTP 0)) w2) = OtpVerified.
Proof. repeat split; reflexivity. Qed.

(** C6, as stated, fails: two draws of the random source can give the same
    code, and then the first code verifies. *)
Lemma same_code_counterexample : ~ AsStated.first_code_never_verifies.
Proof.
  intros Hclaim. destruct (same_code_run Fixture.crypto) as (_ & _ & Hok).
  cbv zeta in Hok.
  destruct (Hclaim Fixture.crypto Fixture.start ADMIN_EMAIL 0%Z 1%Z 2%Z
              0%N 900000%N 0%N fixture_eligible) as [Hfirst _]; [done|].
  rewrite Hok in Hfirst. discriminate.
Qed.

(** C6, amended: a request replaces whatever challenge the identity had by
    a fresh unverified one; after two requests in a row whose codes
    differ, the first code fails with CodeMismatch and the second code
    verifies, within the ten minutes of the second request. *)
Theorem request_replaces_challenge (C : WebCrypto) (w : World) (e : string)
    (t1 t2 now : Z) (r1 r2 rnd : N) :
  eligible e (db w) ->
  (now <= t2 + 600000)%Z ->
  generateOTP r1 <> generateOTP r2 ->
  let w1 := world (POST t1 r1 (request_call e) w) in
  let w2 := world (POST t2 r2 (request_call e) w1) in
  otpStore w1 !! e = Some (fresh_challenge t1 r1) /\
  otpStore w2 !! e = Some (fresh_challenge t2 r2) /\
  failure (reply (POST now rnd (verify_call e (generateOTP r1)) w2))
    = Some CodeMismatch /\
  reply (POST now rnd (verify_call e (generateOTP r2)) w2) = OtpVerified.
Proof.
  intros He Hnow Hdiff w1 w2.
  assert (Hc1 : generateOTP r1 <> "").
  { intros Hempty. pose proof (generateOTP_truthy r1) as Ht. by rewrite Hempty in Ht. }
  assert (Hc2 : generateOTP r2 <> "").
  { intros Hempty. pose proof (generateOTP_truthy r2) as Ht. by rewrite Hempty in Ht. }
  destruct (POST_request t1 r1 e w He) as (q1 & _ & E1).
  specialize (E1 _ _ _ (request_run t1 r1 e w)).
  assert (He1 : eligible e (db w1)) by (subst w1; by rewrite E1).
  destruct (POST_request t2 r2 e w1 He1) as (q2 & _ & E2).
  specialize (E2 _ _ _ (request_run t2 r2 e w1)).
  assert (H1 : otpStore w1 !! e = Some (fresh_challenge t1 r1)).
  { subst w1. rewrite E1. apply lookup_insert_eq. }
  assert (H2 : otpStore w2 !! e = Some (fresh_challenge t2 r2)).
  { subst w2. rewrite E2. apply lookup_insert_eq. }
  assert (He2 : eligible e (db w2)) by (subst w2; by rewrite E2).
  destruct (POST_verify now rnd e (generateOTP r1) w2 He2) as (q3 & _ & E3).
  specialize (E3 _ _ _ (verify_mismatch now e (generateOTP r1) w2 _ Hc1 H2 Hnow Hdiff)).
  destruct (POST_verify now rnd e (generateOTP r2) w2 He2) as (q4 & _ & E4).
  specialize (E4 _ _ _ (verify_match now e (generateOTP r2) w2 _ Hc2 H2 Hnow eq_refl)).
  repeat split; [done|done|by rewrite E3|by rewrite E4].
Qed.

Lemma request_replaces_challenge_witness :
  let w1 := world (POST (C := Fixture.crypto) 0 5 (request_call ADMIN_EMAIL)
                     Fixture.start) in
  let w2 := world (POST (C := Fixture.crypto) 1 6 (request_call ADMIN_EMAIL) w1) in
  failure (reply (POST (C := Fixture.crypto) 2 0
                    (verify_call ADMIN_EMAIL (generateOTP 5)) w2))
    = Some CodeMismatch /\
  reply (POST (C := Fixture.crypto) 2 0 (verify_call ADMIN_EMAIL (generateOTP 6)) w2)
    = OtpVerified.
Proof.
  pose proof (request_replaces_challenge Fixture.crypto Fixture.start ADMIN_EMAIL
                0 1 2 5 6 0 fixture_eligible) as H.
  cbv zeta in H.
  destruct H as (_ & _ & Hfirst & Hsecond); [lia|vm_compute; discriminate|].
  exact (conj Hfirst Hsecond).
Defined.

(** *** A wrong code *)

(** Whatever the platform's cryptography: with the challenge of code
    "100000" live, a [verify] with the empty code is answered "code
    required", a validation error. *)
Lemma empty_code_run (C : WebCrypto) :
  let w1 := world (POST 0 0 (request_call ADMIN_EMAIL) Fixture.start) in
  otpStore w1 !! ADMIN_EMAIL = Some (fresh_challenge 0 0) /\
  otp (fresh_challenge 0 0) = "100000" /\
  reply (POST 1 0 (verify_call ADMIN_EMAIL "") w1) = OtpRequired.
Proof. repeat split; reflexivity. Qed.

(** C7, as stated, fails: the empty code is different from the stored one,
    yet it is turned away as a missing code before any comparison. *)
Lemma empty_code_counterexample : ~ AsStated.other_code_is_CodeMismatch.
Proof.
  intros Hclaim. destruct (empty_code_run Fixture.crypto) as (Hw1 & _ & Hreply).
  cbv zeta in Hw1, Hreply.
  destruct (Hclaim Fixture.crypto
              (world (POST (C := Fixture.crypto) 0 0 (request_call ADMIN_EMAIL)
                        Fixture.start))
              ADMIN_EMAIL (fresh_challenge 0 0)
              1%Z 0%N "" fixture_eligible Hw1) as [Hkind _]; [done|done|].
  rewrite Hreply in Hkind. discriminate.
Qed.

(** C7, amended: while the challenge a request stored is live, a [verify]
    with a non-empty code other than the stored one fails with
    CodeMismatch and leaves the whole state as it was (the entry is still
    unverified, with the same code and expiry), and a later [verify] with
    the stored code, still within the ten minutes, succeeds. *)
Theorem wrong_code_changes_nothing (C : WebCrypto) (w : World) (e : string)
    (t0 now later : Z) (r0 rnd rnd' : N) (code : string) :
  eligible e (db w) ->
  otpStore w !! e = Some (fresh_challenge t0 r0) ->
  (now <= t0 + 600000)%Z -> (later <= t0 + 600000)%Z ->
  code <> "" -> code <> generateOTP r0 ->
  let v := POST now rnd (verify_call e code) w in
  failure (reply v) = Some CodeMismatch /\
  world v = w /\
  otpStore (world v) !! e = Some (fresh_challenge t0 r0) /\
  reply (POST later rnd' (verify_call e (generateOTP r0)) (world v)) = OtpVerified.
Proof.
  intros He Hw Hnow Hlater Hc Hne v.
  assert (Hc0 : generateOTP r0 <> "").
  { intros Hempty. pose proof (generateOTP_truthy r0) as Ht. by rewrite Hempty in Ht. }
  destruct (POST_verify now rnd e code w He) as (q1 & _ & E1).
  specialize (E1 _ _ _ (verify_mismatch now e code w _ Hc Hw Hnow Hne)).
  fold v in E1.
  assert (Hv : world v = w) by (by rewrite E1).
  rewrite Hv.
  destruct (POST_verify later rnd' e (generateOTP r0) w He) as (q2 & _ & E2).
  specialize (E2 _ _ _ (verify_match later e (generateOTP r0) w _ Hc0 Hw Hlater eq_refl)).
  repeat split; [by rewrite E1|done|by rewrite E2].
Qed.

Lemma wrong_code_changes_nothing_witness :
  let w1 := world (POST (C := Fixture.crypto) 0 0 (request_call ADMIN_EMAIL)
                     Fixture.start) in
  let v := POST (C := Fixture.crypto) 1 0 (verify_call ADMIN_EMAIL "000000") w1 in
  failure (reply v) = Some CodeMismatch /\ world v = w1 /\
  reply (POST (C := Fixture.crypto) 2 0 (verify_call ADMIN_EMAIL (generateOTP 0))
           (world v)) = OtpVerified.
Proof.
  pose proof (wrong_code_changes_nothing Fixture.crypto
                (world (POST (C := Fixture.crypto) 0 0 (request_call ADMIN_EMAIL)
                          Fixture.start))
                ADMIN_EMAIL 0 1 2 0 0 0 "000000" fixture_eligible eq_refl) as H.
  cbv zeta in H.
  destruct H as (Hkind & Hsame & _ & Hagain);
    [lia|lia|discriminate|vm_compute; discriminate|].
  exact (conj Hkind (conj Hsame Hagain)).
Defined.

End OtpFacts.

(** ** Password strength *)
Module StrengthFacts.
Import Strength.

Lemma test_spec (class : ascii -> bool) (s : string) :
  test class s = true <->
  exists c, In c (list_ascii_of_string s) /\ class c = true.
Proof.
  induction s as [|a s IH]; cbn [test list_ascii_of_string In].
  - split; [done|]. by intros (c & [] & _).
  - rewrite orb_true_iff, IH. split.
    + intros [Ha|(c & Hin & Hc)]; [exists a|exists c]; tauto.
    + intros (c & [<-|Hin] & Hc); [by left|right; eauto].
Qed.

Lemma list_ascii_of_string_app (a b : string) :
  list_ascii_of_string (a ++ b) =
  (list_ascii_of_string a ++ list_ascii_of_string b)%list.
Proof.
  induction a as [|c a IH]; [done|].
  change (String c a ++ b) with (String c (a ++ b)).
  cbn [list_ascii_of_string]. by rewrite IH.
Qed.

Lemma test_app (class : ascii -> bool) (a b : string) :
  test class (a ++ b) = test class a || test class b.
Proof.
  induction a as [|c a IH]; [done|].
  change (String c a ++ b) with (String c (a ++ b)).
  cbn [test]. by rewrite IH, orb_assoc.
Qed.

Lemma length_app (a b : string) :
  String.length (a ++ b) = (String.length a + String.length b)%nat.
Proof.
  induction a as [|c a IH]; [done|].
  change (String c a ++ b) with (String c (a ++ b)).
  cbn [String.length]. by rewrite IH.
Qed.

(** The five checks, as booleans. *)
Lemma errors_unfold (p : string) :
  errors (validatePasswordStrength p) =
  ((if (String.length p <? 8)%nat then [TooShort] else []) ++
   (if test upper p then [] else [NoUpper]) ++
   (if test lower p then [] else [NoLower]) ++
   (if test digit p then [] else [NoDigit]) ++
   (if test special p then [] else [NoSpecial]))%list.
Proof.
  unfold validatePasswordStrength, push. cbn [errors].
  destruct (String.length p <? 8)%nat, (test upper p), (test lower p),
    (test digit p), (test special p); reflexivity.
Qed.

Lemma valid_unfold (p : string) :
  valid (validatePasswordStrength p) =
  negb (String.length p <? 8)%nat && test upper p && test lower p &&
  test digit p && test special p.
Proof.
  unfold validatePasswordStrength, push. cbn [valid].
  destruct (String.length p <? 8)%nat, (test upper p), (test lower p),
    (test digit p), (test special p); reflexivity.
Qed.

(** X1: a password is valid exactly when it has at least 8 characters and
    contains an upper-case letter, a lower-case letter, a digit and a
    character that is none of these. *)
Theorem valid_iff_all_rules (p : string) :
  valid (validatePasswordStrength p) = true <->
  (8 <= String.length p)%nat /\
  (exists c, In c (list_ascii_of_string p) /\ upper c = true) /\
  (exists c, In c (list_ascii_of_string p) /\ lower c = true) /\
  (exists c, In c (list_ascii_of_string p) /\ digit c = true) /\
  (exists c, In c (list_ascii_of_string p) /\ special c = true).
Proof.
  rewrite valid_unfold, !andb_true_iff, negb_true_iff, Nat.ltb_ge, !test_spec.
  tauto.
Qed.

(** X2: the messages reported are exactly those of the broken rules, each
    once and in the order of the checks; the password is valid exactly
    when none is reported. *)
Theorem errors_are_broken_rules (p : string) :
  (forall m, In m (errors (validatePasswordStrength p)) <-> broken m p) /\
  sublist (errors (validatePasswordStrength p))
    [TooShort; NoUpper; NoLower; NoDigit; NoSpecial] /\
  (valid (validatePasswordStrength p) = true <->
   errors (validatePasswordStrength p) = []).
Proof.
  split; [|split].
  - intros m. rewrite errors_unfold, !in_app_iff.
    pose proof (test_spec upper p) as Hu. pose proof (test_spec lower p) as Hl.
    pose proof (test_spec digit p) as Hd. pose proof (test_spec special p) as Hs.
    destruct (Nat.ltb_spec (String.length p) 8) as [Hlen|Hlen],
      (test upper p), (test lower p), (test digit p), (test special p);
      destruct m; cbn [broken In];
      (split; [intros H; repeat destruct H as [H|H]; try done; try lia;
               try (by rewrite <- ?Hu, <- ?Hl, <- ?Hd, <- ?Hs)
              |intros H; try lia; try tauto;
               try (exfalso; apply H;
                    first [by apply Hu|by apply Hl|by apply Hd|by apply Hs])]).
  - rewrite errors_unfold.
    destruct (String.length p <? 8)%nat, (test upper p), (test lower p),
      (test digit p), (test special p); cbn [app]; repeat constructor.
  - rewrite errors_unfold, valid_unfold.
    destruct (String.length p <? 8)%nat, (test upper p), (test lower p),
      (test digit p), (test special p); cbn; split; done.
Qed.

(** X3: adding characters in front or behind never makes a valid password
    invalid. *)
Theorem valid_survives_extension (p q : string) :
  valid (validatePasswordStrength p) = true ->
  valid (validatePasswordStrength (p ++ q)) = true /\
  valid (validatePasswordStrength (q ++ p)) = true.
Proof.
  rewrite !valid_unfold, !andb_true_iff, !negb_true_iff, !Nat.ltb_ge.
  rewrite !length_app, !test_app, !orb_true_iff.
  intros ((((Hlen & Hu) & Hl) & Hd) & Hs). repeat split; (lia || tauto).
Qed.

Lemma valid_survives_extension_witness :
  valid (validatePasswordStrength ("NewP@ss1" ++ "abc")) = true /\
  valid (validatePasswordStrength ("abc" ++ "NewP@ss1")) = true.
Proof. exact (valid_survives_extension "NewP@ss1" "abc" eq_refl). Defined.

End StrengthFacts.

(** ** More on password hashing *)
Module AuthMore.
Import Js Credential JsFacts AuthFacts.

Lemma hex_pair_lower (b : byte) :
  exists c1 c2,
    hex_pair b = String c1 (String c2 EmptyString) /\
    HexText.lower_hex c1 = true /\ HexText.lower_hex c2 = true.
Proof. destruct b; do 2 eexists; (split; [reflexivity|]); done. Qed.

Lemma hex_of_bytes_lower (l : list byte) (c : ascii) :
  In c (list_ascii_of_string (hex_of_bytes l)) -> HexText.lower_hex c = true.
Proof.
  induction l as [|b l IH]; [done|].
  rewrite hex_of_bytes_cons, StrengthFacts.list_ascii_of_string_app, in_app_iff.
  destruct (hex_pair_lower b) as (c1 & c2 & -> & H1 & H2).
  cbn [list_ascii_of_string In]. intros [[<-|[<-|[]]]|Hin]; auto.
Qed.

Lemma hex_of_bytes_length (l : list byte) :
  String.length (hex_of_bytes l) = (2 * length l)%nat.
Proof.
  induction l as [|b l IH]; [done|].
  rewrite hex_of_bytes_cons, StrengthFacts.length_app, IH.
  destruct (hex_pair_lower b) as (c1 & c2 & -> & _). cbn [String.length length]. lia.
Qed.

Lemma hex_prefix_inj (l1 l2 : list byte) (s1 s2 : string) :
  hex_of_bytes l1 ++ "$" ++ s1 = hex_of_bytes l2 ++ "$" ++ s2 -> l1 = l2.
Proof.
  intros Heq. apply (f_equal (split "$")) in Heq.
  rewrite !split_at_separator in Heq by apply hex_of_bytes_no_separator.
  injection Heq as Heq _. by apply hex_of_bytes_inj.
Qed.

Lemma pairs_odd_tail (l : list byte) (c : ascii) :
  pairs (hex_of_bytes l ++ String c EmptyString) = pairs (hex_of_bytes l).
Proof.
  induction l as [|b l IH]; [done|].
  rewrite hex_of_bytes_cons.
  destruct (hex_pair_shape b) as (c1 & c2 & -> & _ & _ & L1 & L2).
  change ((String c1 (String c2 EmptyString) ++ hex_of_bytes l) ++ String c EmptyString)
    with (String c1 (String c2 (hex_of_bytes l ++ String c EmptyString))).
  change (String c1 (String c2 EmptyString) ++ hex_of_bytes l)
    with (String c1 (String c2 (hex_of_bytes l))).
  cbn [pairs]. rewrite L1, L2. cbn [negb andb]. by rewrite IH.
Qed.

Lemma legacy_same (a b junk : string) :
  ~ has_separator a ->
  startsWith "$2" (a ++ "$" ++ b ++ "$" ++ junk) = startsWith "$2" (a ++ "$" ++ b).
Proof.
  intros Ha. destruct a as [|c a].
  - by destruct b as [|d b].
  - change (String c a ++ "$" ++ b) with (String c (a ++ "$" ++ b)).
    change (String c a ++ "$" ++ b ++ "$" ++ junk)
      with (String c (a ++ "$" ++ b ++ "$" ++ junk)).
    cbn [startsWith]. destruct (Ascii.eqb_spec "$" c) as [<-|_]; [|done].
    exfalso. apply Ha, has_separator_cons. by left.
Qed.

Section WithCrypto.
Context {C : WebCrypto}.

(** What [verifyPassword] does with a value that is not legacy and whose
    first two parts are [a] and [b]. *)
Lemma verifyPassword_parts (p stored a b : string) (rest : list string) :
  startsWith "$2" stored = false ->
  split "$" stored = a :: b :: rest ->
  Auth.verifyPassword p stored =
  if negb (truthy (Some a)) || negb (truthy (Some b)) then Returned false
  else match match_pairs a with
       | None => Returned false
       | Some chunks =>
           Returned (String.eqb
                       (hex_of_bytes
                          (deriveBits_pbkdf2
                             (map (fun byte => toUint8 (parseInt16 byte)) chunks)
                             100000 (encode p) 256))
                       b)
       end.
Proof.
  intros Hleg Hsplit. unfold Auth.verifyPassword, Auth.verifyPassword_try.
  rewrite Hleg, Hsplit. cbn [lookup list_lookup default from_option]. unfold id.
  destruct (negb (truthy (Some a)) || negb (truthy (Some b))); [done|].
  by destruct (match_pairs a).
Qed.

End WithCrypto.

(** X4: a hash has 97 characters: 32 lower-case hexadecimal characters of
    salt, the separator, and 64 of derived key; it is in the format of a
    16-byte salt and a 32-byte key. *)
Theorem hash_has_the_format (C : WebCrypto) (S : WebCryptoSpec C)
    (rnd : Entropy) (s : string) :
  pbkdf2_format (Auth.hashPassword rnd s) /\
  String.length (Auth.hashPassword rnd s) = 97%nat /\
  String.get 32 (Auth.hashPassword rnd s) = Some "$"%char /\
  forall c, In c (list_ascii_of_string (Auth.hashPassword rnd s)) ->
            c = "$"%char \/ HexText.lower_hex c = true.
Proof.
  unfold Auth.hashPassword.
  set (salt := getRandomValues rnd 16).
  set (key := deriveBits_pbkdf2 salt 100000 (encode s) 256).
  assert (Hsalt : length salt = 16%nat) by apply getRandomValues_length.
  assert (Hkey : length key = 32%nat) by apply deriveBits_256.
  repeat split.
  - by exists salt, key.
  - rewrite !StrengthFacts.length_app, !hex_of_bytes_length, Hsalt, Hkey. done.
  - assert (Hlen : String.length (hex_of_bytes salt) = 32%nat)
      by (by rewrite hex_of_bytes_length, Hsalt).
    revert Hlen. generalize (hex_of_bytes salt) (hex_of_bytes key). intros a b.
    do 33 (destruct a as [|? a]; [done|]); done || (intros; exfalso; cbn in *; lia).
  - intros c. rewrite !StrengthFacts.list_ascii_of_string_app, !in_app_iff.
    cbn [list_ascii_of_string In].
    intros [Hin|[[<-|[]]|Hin]]; [right|by left|right]; by eapply hex_of_bytes_lower.
Qed.

Lemma hash_has_the_format_witness :
  String.length (Auth.hashPassword (C := Fixture.crypto) Fixture.entropy "pw") = 97%nat.
Proof.
  exact (proj1 (proj2 (hash_has_the_format Fixture.crypto fixture_crypto_spec
                         Fixture.entropy "pw"))).
Defined.

(** X5: hashing the same secret with two different salts gives two
    different stored values, and the secret verifies against both. *)
Theorem different_salts_different_hashes (C : WebCrypto) (S : WebCryptoSpec C)
    (rnd1 rnd2 : Entropy) (s : string) :
  getRandomValues rnd1 16 <> getRandomValues rnd2 16 ->
  Auth.hashPassword rnd1 s <> Auth.hashPassword rnd2 s /\
  Auth.verifyPassword s (Auth.hashPassword rnd1 s) = Returned true /\
  Auth.verifyPassword s (Auth.hashPassword rnd2 s) = Returned true.
Proof.
  intros Hne. split; [|split].
  - unfold Auth.hashPassword. intros Heq. by apply hex_prefix_inj in Heq.
  - assert (Hs1 : getRandomValues rnd1 16 <> [])
      by apply (nonempty_of_length _ 15), getRandomValues_length.
    unfold Auth.hashPassword. rewrite verifyPassword_hex; [|done|].
    + by rewrite bool_decide_eq_true_2.
    + apply (nonempty_of_length _ 31), deriveBits_256.
  - assert (Hs2 : getRandomValues rnd2 16 <> [])
      by apply (nonempty_of_length _ 15), getRandomValues_length.
    unfold Auth.hashPassword. rewrite verifyPassword_hex; [|done|].
    + by rewrite bool_decide_eq_true_2.
    + apply (nonempty_of_length _ 31), deriveBits_256.
Qed.

Lemma different_salts_different_hashes_witness :
  Auth.hashPassword (C := Fixture.crypto) Fixture.entropy "pw" <>
  Auth.hashPassword (C := Fixture.crypto) (fun _ => x00) "pw".
Proof.
  apply (different_salts_different_hashes Fixture.crypto fixture_crypto_spec
           Fixture.entropy (fun _ => x00) "pw").
  vm_compute. discriminate.
Defined.

(** X6: whatever follows a second separator of the stored value is
    ignored: the verdict is that of the first two parts alone. *)
Theorem text_after_second_separator_is_ignored (C : WebCrypto)
    (p a b junk : string) :
  ~ has_separator a -> ~ has_separator b ->
  Auth.verifyPassword p (a ++ "$" ++ b ++ "$" ++ junk) =
  Auth.verifyPassword p (a ++ "$" ++ b).
Proof.
  intros Ha Hb.
  pose proof (legacy_same a b junk Ha) as Hsame.
  destruct (startsWith "$2" (a ++ "$" ++ b)) eqn:Hleg.
  - unfold Auth.verifyPassword, Auth.verifyPassword_try. by rewrite Hleg, Hsame.
  - rewrite (verifyPassword_parts p _ a b (split "$" junk) Hsame).
    2: { rewrite split_at_separator by done. by rewrite split_at_separator by done. }
    rewrite (verifyPassword_parts p _ a b [] Hleg); [done|].
    rewrite split_at_separator by done. by rewrite split_no_separator by done.
Qed.

Lemma text_after_second_separator_is_ignored_witness :
  Auth.verifyPassword (C := Fixture.crypto) "pw" ("00ff" ++ "$" ++ "ab" ++ "$" ++ "x$y") =
  Auth.verifyPassword (C := Fixture.crypto) "pw" ("00ff" ++ "$" ++ "ab").
Proof.
  apply (text_after_second_separator_is_ignored Fixture.crypto "pw" "00ff" "ab" "x$y");
    vm_compute; intuition discriminate.
Defined.

(** X7: when the salt part is a single character the [try] block throws
    (there is no two-character match to decode), and [verifyPassword]
    answers [false] for every password. *)
Theorem one_character_salt_throws (C : WebCrypto) (p key : string) (c : ascii) :
  c <> "$"%char -> key <> "" -> ~ has_separator key ->
  Auth.verifyPassword_try p (String c EmptyString ++ "$" ++ key) = Thrown /\
  Auth.verifyPassword p (String c EmptyString ++ "$" ++ key) = Returned false.
Proof.
  intros Hc Hkey Hno.
  assert (Htry : Auth.verifyPassword_try p (String c EmptyString ++ "$" ++ key) = Thrown).
  { unfold Auth.verifyPassword_try.
    change (String c EmptyString ++ "$" ++ key) with (String c ("$" ++ key)).
    cbn [startsWith]. destruct (Ascii.eqb_spec "$" c) as [<-|_]; [done|].
    change (String c ("$" ++ key)) with (String c EmptyString ++ "$" ++ key).
    rewrite split_at_separator.
    2: { rewrite has_separator_cons. unfold has_separator. cbn. tauto. }
    rewrite split_no_separator by done.
    cbn [lookup list_lookup default from_option]. unfold id.
    destruct key as [|k key]; [done|]. reflexivity. }
  split; [done|]. unfold Auth.verifyPassword. by rewrite Htry.
Qed.

Lemma one_character_salt_throws_witness :
  Auth.verifyPassword_try (C := Fixture.crypto) "pw" ("a" ++ "$" ++ "bc") = Thrown /\
  Auth.verifyPassword (C := Fixture.crypto) "pw" ("a" ++ "$" ++ "bc") = Returned false.
Proof.
  apply (one_character_salt_throws Fixture.crypto "pw" "bc" "a");
    [discriminate|discriminate|vm_compute; intuition discriminate].
Defined.

(** X8: the comparison of the derived key is exact: a stored value whose
    key part has a character that is not a lower-case hexadecimal digit,
    an upper-case letter for one, verifies for no password. *)
Theorem key_part_must_be_lower_hex (C : WebCrypto) (p a b : string) (c : ascii) :
  ~ has_separator a -> ~ has_separator b ->
  In c (list_ascii_of_string b) -> HexText.lower_hex c = false ->
  Auth.verifyPassword p (a ++ "$" ++ b) = Returned false.
Proof.
  intros Ha Hb Hin Hc.
  destruct (startsWith "$2" (a ++ "$" ++ b)) eqn:Hleg.
  { unfold Auth.verifyPassword, Auth.verifyPassword_try. by rewrite Hleg. }
  rewrite (verifyPassword_parts p _ a b [] Hleg).
  2: { rewrite split_at_separator by done. by rewrite split_no_separator by done. }
  destruct (negb (truthy (Some a)) || negb (truthy (Some b))); [done|].
  destruct (match_pairs a) as [chunks|]; [|done]. f_equal.
  apply String.eqb_neq. intros Heq. rewrite <- Heq in Hin.
  apply hex_of_bytes_lower in Hin. congruence.
Qed.

Lemma key_part_must_be_lower_hex_witness :
  Auth.verifyPassword (C := Fixture.crypto) "pw" ("00ff" ++ "$" ++ "AB") = Returned false.
Proof.
  apply (key_part_must_be_lower_hex Fixture.crypto "pw" "00ff" "AB" "A");
    [vm_compute; intuition discriminate|vm_compute; intuition discriminate
    |by left|reflexivity].
Defined.

(** X9: a last, unpaired character of the salt part is dropped: the
    verdict is the same with and without it. *)
Theorem odd_salt_character_is_dropped (C : WebCrypto) (p key : string)
    (salt : list byte) (c : ascii) :
  salt <> [] -> c <> "$"%char ->
  Auth.verifyPassword p (hex_of_bytes salt ++ String c EmptyString ++ "$" ++ key) =
  Auth.verifyPassword p (hex_of_bytes salt ++ "$" ++ key).
Proof.
  intros Hsalt Hc.
  assert (Hno : ~ has_separator (hex_of_bytes salt ++ String c EmptyString)).
  { rewrite has_separator_app, has_separator_cons. unfold has_separator at 2. cbn.
    pose proof (hex_of_bytes_no_separator salt). tauto. }
  assert (Hassoc : hex_of_bytes salt ++ String c EmptyString ++ "$" ++ key =
                   (hex_of_bytes salt ++ String c EmptyString) ++ "$" ++ key).
  { generalize (hex_of_bytes salt). intros h. induction h as [|d h IH]; [done|].
    change (String d h ++ String c EmptyString ++ "$" ++ key)
      with (String d (h ++ String c EmptyString ++ "$" ++ key)).
    by rewrite IH. }
  destruct (split_cons "$" key) as (k & rest & Hk).
  rewrite (verifyPassword_parts p _ (hex_of_bytes salt ++ String c EmptyString) k rest).
  2: { apply not_legacy_hex_prefix. done. }
  2: { rewrite Hassoc, split_at_separator by done. by rewrite Hk. }
  rewrite (verifyPassword_parts p _ (hex_of_bytes salt) k rest).
  2: { by apply not_legacy_hex_prefix. }
  2: { rewrite split_at_separator by apply hex_of_bytes_no_separator. by rewrite Hk. }
  assert (Htr : truthy (Some (hex_of_bytes salt ++ String c EmptyString)) = true).
  { destruct salt as [|b salt]; [done|]. rewrite hex_of_bytes_cons.
    destruct (hex_pair_shape b) as (c1 & c2 & -> & _). done. }
  rewrite Htr, hex_of_bytes_nonempty by done.
  unfold match_pairs. by rewrite pairs_odd_tail.
Qed.

Lemma odd_salt_character_is_dropped_witness :
  Auth.verifyPassword (C := Fixture.crypto) "pw"
    (hex_of_bytes [x00; xff] ++ "7" ++ "$" ++ "ab") =
  Auth.verifyPassword (C := Fixture.crypto) "pw" (hex_of_bytes [x00; xff] ++ "$" ++ "ab").
Proof.
  apply (odd_salt_character_is_dropped Fixture.crypto "pw" "ab" [x00; xff] "7");
    discriminate.
Defined.

End AuthMore.

(** ** More on the OTP route *)
Module OtpMore.
Import OtpRoute Call OtpFacts Machine.

(** *** Codes *)

Lemma pretty_N_char_digit (x : N) : Strength.digit (pretty_N_char x) = true.
Proof. unfold pretty_N_char. by repeat case_match. Qed.

Lemma pretty_N_go_digits (x : N) (s : string) :
  (forall c, In c (list_ascii_of_string s) -> Strength.digit c = true) ->
  forall c, In c (list_ascii_of_string (pretty_N_go x s)) -> Strength.digit c = true.
Proof.
  revert s. induction (N.lt_wf_0 x) as [x _ IH]; intros s Hs.
  destruct (decide (x = 0)%N) as [->|Hx]; [by rewrite pretty_N_go_0|].
  rewrite pretty_N_go_step by lia. apply IH; [apply N.div_lt; [lia|done]|].
  intros c [<-|Hin]; [apply pretty_N_char_digit|by apply Hs].
Qed.

(** X10: a code is the decimal text of a number from 100000 to 999999: six
    characters, all digits. *)
Theorem code_is_six_digits (rnd : N) :
  String.length (generateOTP rnd) = 6%nat /\
  (forall c, In c (list_ascii_of_string (generateOTP rnd)) ->
             Strength.digit c = true) /\
  exists n : N, (100000 <= n <= 999999)%N /\ generateOTP rnd = Js.String_of_N n.
Proof.
  split; [apply generateOTP_six_digits|]. split; [|apply generateOTP_range].
  unfold generateOTP, Js.String_of_N, pretty, pretty_N.
  case_decide as H0; [by intros c [<-|[]]|].
  by apply pretty_N_go_digits.
Qed.

(** X11: two draws give the same code exactly when they agree modulo 2^32
    and then modulo 900000; so at most 900000 codes exist. *)
Theorem same_code_iff_same_residue (r1 r2 : N) :
  generateOTP r1 = generateOTP r2 <->
  ((r1 mod 2 ^ 32) mod 900000 = (r2 mod 2 ^ 32) mod 900000)%N.
Proof.
  unfold generateOTP, toUint32, Js.String_of_N. split.
  - intros Heq. apply (inj pretty) in Heq. by apply N.add_cancel_l in Heq.
  - by intros ->.
Qed.

(** *** What a call can change *)

Section WithCrypto.
Context {C : WebCrypto}.

Lemma changePassword_mismatch (now : Z) (e code newSecret : string)
    (w : World) (ent : OtpEntry) :
  code <> "" -> newSecret <> "" ->
  otpStore w !! e = Some ent -> verified ent = true -> (now <= expires ent)%Z ->
  code <> otp ent ->
  changePassword now e (Some code) (Some newSecret) w = (OtpIncorrect, w, []).
Proof.
  intros Hc Hp Hw Hv Ht Hne. unfold changePassword.
  rewrite !truthy_nonempty by done. cbn [negb orb].
  unfold mbind, M_bind, otpStore_get. rewrite Hw, Hv. cbn [negb].
  rewrite Z.gtb_ltb, (proj2 (Z.ltb_ge _ _)) by done.
  rewrite bool_decide_eq_false_2 by congruence. done.
Qed.

(** How the entry of [e] after a case of the [switch] relates to the one
    before: it is the fresh challenge of a request, or it has the code and
    expiry it had, verified if it was or if this is a successful
    verify. *)
Lemma switch_entry (a : string) (now : Z) (rnd : N) (e : string) (b : Body)
    (w : World) (ent' : OtpEntry) :
  otpStore (world (switch a now rnd e b w)) !! e = Some ent' ->
  (reply (switch a now rnd e b w) = OtpSent /\ ent' = fresh_challenge now rnd) \/
  (reply (switch a now rnd e b w) <> OtpSent /\
   exists ent, otpStore w !! e = Some ent /\
     otp ent' = otp ent /\ expires ent' = expires ent /\
     (verified ent' = verified ent \/
      (reply (switch a now rnd e b w) = OtpVerified /\ verified ent' = true /\
       (now <= expires ent)%Z /\ body_otp b = Some (otp ent)))).
Proof.
  unfold switch.
  destruct (String.eqb_spec a "request") as [->|_].
  { rewrite request_run. cbn [world reply fst snd otpStore].
    rewrite lookup_insert_eq. intros [= <-]. by left. }
  destruct (String.eqb_spec a "verify") as [->|_].
  { unfold verify. destruct (negb (Js.truthy (body_otp b)));
      [cbn; intros H; right; split; [done|]; eauto 10|].
    unfold mbind, M_bind, otpStore_get.
    destruct (otpStore w !! e) as [ent|] eqn:Hw; [|cbn; by rewrite Hw].
    destruct (now >? expires ent)%Z eqn:Ht.
    { cbn. by rewrite lookup_delete_eq. }
    case_bool_decide as Ho; cbn [negb].
    - cbn. rewrite lookup_insert_eq. intros [= <-]. right. split; [done|].
      exists ent. cbn. repeat split; try done. right.
      rewrite Z.gtb_ltb in Ht. apply Z.ltb_ge in Ht. done.
    - cbn. rewrite Hw. intros [= <-]. right. split; [done|]. exists ent. tauto. }
  destruct (String.eqb_spec a "changePassword") as [->|_].
  { unfold changePassword.
    destruct (negb (Js.truthy (body_otp b)) || negb (Js.truthy (newPassword b)));
      [cbn; intros H; right; split; [done|]; eauto 10|].
    unfold mbind, M_bind, otpStore_get.
    destruct (otpStore w !! e) as [ent|] eqn:Hw; [|cbn; by rewrite Hw].
    destruct (negb (verified ent));
      [cbn; rewrite Hw; intros [= <-]; right; split; [done|]; exists ent; tauto|].
    destruct (now >? expires ent)%Z; [cbn; by rewrite lookup_delete_eq|].
    destruct (negb (bool_decide (Some (otp ent) = body_otp b)));
      [cbn; rewrite Hw; intros [= <-]; right; split; [done|]; exists ent; tauto|].
    cbn. by rewrite lookup_delete_eq. }
  cbn. intros H. right. split; [done|]. eauto 10.
Qed.

(** A case of the [switch] touches the entry of its identity only. *)
Lemma switch_other_keys (a : string) (now : Z) (rnd : N) (e k : string) (b : Body)
    (w : World) :
  k <> e -> otpStore (world (switch a now rnd e b w)) !! k = otpStore w !! k.
Proof.
  intros Hk. unfold switch.
  destruct (String.eqb_spec a "request") as [->|_].
  { rewrite request_run. cbn. by rewrite lookup_insert_ne. }
  destruct (String.eqb_spec a "verify") as [->|_].
  { unfold verify. destruct (negb (Js.truthy (body_otp b))); [done|].
    unfold mbind, M_bind, otpStore_get.
    destruct (otpStore w !! e) as [ent|]; [|done].
    destruct (now >? expires ent)%Z; [cbn; by rewrite lookup_delete_ne|].
    destruct (negb (bool_decide (Some (otp ent) = body_otp b))); [done|].
    cbn. by rewrite lookup_insert_ne. }
  destruct (String.eqb_spec a "changePassword") as [->|_]; [|done].
  unfold changePassword.
  destruct (negb (Js.truthy (body_otp b)) || negb (Js.truthy (newPassword b))); [done|].
  unfold mbind, M_bind, otpStore_get.
  destruct (otpStore w !! e) as [ent|]; [|done].
  destruct (negb (verified ent)); [done|].
  destruct (now >? expires ent)%Z; [cbn; by rewrite lookup_delete_ne|].
  destruct (negb (bool_decide (Some (otp ent) = body_otp b))); [done|].
  cbn. by rewrite lookup_delete_ne.
Qed.

(** [POST_run], with what the lookups have found. *)
Lemma POST_run_admin (now : Z) (rnd : N) (body : option Body) (w : World) :
  (reply (POST now rnd body w) <> PasswordChanged /\
   reply (POST now rnd body w) <> OtpSent /\
   reply (POST now rnd body w) <> OtpVerified /\
   updates (effects (POST now rnd body w)) = [] /\
   world (POST now rnd body w) = w) \/
  (exists b t,
     body = Some b /\ body_email b = Some ADMIN_EMAIL /\
     Js.truthy (action b) = true /\ updates t = [] /\
     eligible ADMIN_EMAIL (db w) /\
     POST now rnd body w =
     (reply (switch (default EmptyString (action b)) now rnd ADMIN_EMAIL b w),
      world (switch (default EmptyString (action b)) now rnd ADMIN_EMAIL b w),
      (t ++ effects (switch (default EmptyString (action b)) now rnd
                       ADMIN_EMAIL b w))%list)).
Proof.
  destruct body as [b|]; [|by left].
  destruct (Js.truthy (action b)) eqn:Ha.
  2: { left. unfold POST. by rewrite Ha. }
  destruct (Js.truthy (body_email b)) eqn:Hm.
  2: { left. unfold POST. by rewrite Ha, Hm. }
  destruct (body_email b) as [e|] eqn:Hmail; [|done].
  destruct (String.eqb_spec e ADMIN_EMAIL) as [->|Hne].
  2: { left. unfold POST. rewrite Ha, Hmail, Hm. cbn [negb orb].
       change (default EmptyString (Some e)) with e.
       by rewrite (proj2 (String.eqb_neq _ _)) by done. }
  destruct (find_admin_run ADMIN_EMAIL w) as (found & t & Hfind & Ht).
  rewrite (POST_after_lookup now rnd b w found t Hmail Ha Hfind _ eq_refl).
  destruct found.
  - right. exists b, t. repeat (split; [done|]). split; [|done].
    split; [done|]. by apply (find_admin_found _ _ t).
  - left. cbn. by rewrite app_nil_r.
Qed.

End WithCrypto.

(** X12: an identity that is not eligible, another address or the admin
    address absent from both tables, is answered "not registered" (404)
    whatever the action; the state stays as it was and no update is sent.
    For another address the account store is not even queried. *)
Theorem ineligible_is_turned_away (C : WebCrypto) (now : Z) (rnd : N) (b : Body)
    (e : string) (w : World) :
  body_email b = Some e -> e <> "" -> Js.truthy (action b) = true ->
  ~ eligible e (db w) ->
  reply (POST now rnd (Some b) w) = EmailNotRegistered /\
  status (reply (POST now rnd (Some b) w)) = 404%Z /\
  world (POST now rnd (Some b) w) = w /\
  updates (effects (POST now rnd (Some b) w)) = [] /\
  (e <> ADMIN_EMAIL -> effects (POST now rnd (Some b) w) = []).
Proof.
  intros Hmail He Ha Hno.
  destruct (String.eqb_spec e ADMIN_EMAIL) as [->|Hne].
  - destruct (find_admin_run ADMIN_EMAIL w) as (found & t & Hfind & Ht).
    destruct found.
    { exfalso. apply Hno. split; [done|]. by apply (find_admin_found _ _ t). }
    rewrite (POST_after_lookup now rnd b w false t Hmail Ha Hfind _ eq_refl).
    cbn. rewrite app_nil_r. done.
  - assert (Heq : POST now rnd (Some b) w = (EmailNotRegistered, w, [])).
    { unfold POST. rewrite Ha, Hmail, truthy_nonempty by done. cbn [negb orb].
      change (default EmptyString (Some e)) with e.
      by rewrite (proj2 (String.eqb_neq _ _)) by done. }
    by rewrite Heq.
Qed.

Lemma ineligible_is_turned_away_witness :
  reply (POST (C := Fixture.crypto) 0 0 (request_call "a@x.com") Fixture.start)
    = EmailNotRegistered /\
  effects (POST (C := Fixture.crypto) 0 0 (request_call "a@x.com") Fixture.start) = [].
Proof.
  assert (Hno : ~ eligible "a@x.com" (db Fixture.start)) by (by intros [[=] _]).
  destruct (ineligible_is_turned_away Fixture.crypto 0 0
              {| action := Some "request"; body_email := Some "a@x.com";
                 body_otp := None; newPassword := None |}
              "a@x.com" Fixture.start eq_refl ltac:(discriminate) eq_refl Hno)
    as (Hr & _ & _ & _ & Heff).
  exact (conj Hr (Heff ltac:(discriminate))).
Defined.





(** X15: in every state a process can reach, the store holds no challenge
    but the admin's; a stored code has six characters and came from
    [generateOTP]; and the admin is then eligible. *)
Theorem reachable_invariant (C : WebCrypto) (w : World) :
  reachable w ->
  forall e ent, otpStore w !! e = Some ent ->
    e = ADMIN_EMAIL /\
    (exists rnd, otp ent = generateOTP rnd) /\
    String.length (otp ent) = 6%nat /\
    eligible ADMIN_EMAIL (db w).
Proof.
  induction 1 as [d|w now rnd body Hreach IH]; intros e ent Hent.
  { cbn [otpStore] in Hent. by rewrite lookup_empty in Hent. }
  destruct (POST_run_admin now rnd body w)
    as [(_ & _ & _ & _ & Hw)|(b & t & -> & _ & _ & _ & Helig & Heq)].
  { rewrite Hw in Hent |- *. by apply IH. }
  assert (He' : eligible ADMIN_EMAIL (db (world (POST now rnd (Some b) w))))
    by (by apply POST_preserves_eligible).
  rewrite Heq in Hent. unfold world at 1 in Hent. cbn [fst snd] in Hent.
  destruct (decide (e = ADMIN_EMAIL)) as [->|Hne].
  2: { rewrite switch_other_keys in Hent by done. by destruct (IH e ent Hent). }
  split; [done|].
  destruct (switch_entry _ _ _ _ _ _ _ Hent) as [[_ ->]|(_ & old & Hold & Ho & _)].
  - split; [by exists rnd|]. split; [apply generateOTP_six_digits|done].
  - destruct (IH _ _ Hold) as (_ & Hgen & Hlen & _). rewrite Ho. done.
Qed.

Lemma reachable_invariant_witness :
  String.length
    (otp (fresh_challenge 0 0)) = 6%nat.
Proof.
  assert (Hreach : reachable (C := Fixture.crypto)
            (world (POST (C := Fixture.crypto) 0 0 (request_call ADMIN_EMAIL)
                      Fixture.start))).
  { apply reach_step. apply (reach_start Fixture.database). }
  exact (proj1 (proj2 (proj2 (reachable_invariant Fixture.crypto _ Hreach
                                ADMIN_EMAIL (fresh_challenge 0 0) eq_refl)))).
Defined.

End OtpMore.

(** ** The OTP route: sequences of calls *)
Module OtpFlows.
Import OtpRoute Call OtpFacts OtpMore.


(** The account store after the two updates of a password change. *)
Lemma rows_users_after_update (h e r : string) (d : Database) :
  rows (SelectUser e r) (apply (UpdateAdminUser h e) (apply (UpdateUser h e r) d)) =
  map (set_hash h) (rows (SelectUser e r) d).
Proof.
  cbn [apply rows users]. induction (users d) as [|row l IH]; [done|].
  cbn [map List.filter]. destruct (user_matches e r row) eqn:Hm.
  - assert (Hm' : user_matches e r
              {| user := set_hash h (user row); role := role row;
                 user_updated_at := current_timestamp d |} = true) by exact Hm.
    rewrite Hm'. cbn [map user]. by rewrite IH.
  - by rewrite Hm, IH.
Qed.

Lemma rows_admin_users_after_update (h e r : string) (d : Database) :
  rows (SelectAdminUser e)
    (apply (UpdateAdminUser h e) (apply (UpdateUser h e r) d)) =
  map (set_hash h) (rows (SelectAdminUser e) d).
Proof.
  cbn [apply rows admin_users current_timestamp].
  induction (admin_users d) as [|row l IH]; [done|].
  cbn [map List.filter]. destruct (admin_matches e row) eqn:Hm.
  - assert (Hm' : admin_matches e
              {| admin_user := set_hash h (admin_user row);
                 admin_updated_at := current_timestamp d |} = true) by exact Hm.
    rewrite Hm'. cbn [map admin_user]. by rewrite IH.
  - by rewrite Hm, IH.
Qed.

(** X16: with a verified, live challenge, a [changePassword] with a
    non-empty code other than the stored one fails with CodeMismatch,
    sends no update and leaves the state as it was; the stored code still
    changes the password afterwards. *)
Theorem stale_code_changes_no_password (C : WebCrypto) (w : World) (e : string)
    (ent : OtpEntry) (now later : Z) (rnd rnd' : N) (code newSecret : string) :
  eligible e (db w) ->
  otpStore w !! e = Some ent -> verified ent = true -> otp ent <> "" ->
  (now <= expires ent)%Z -> (later <= expires ent)%Z ->
  code <> "" -> code <> otp ent -> newSecret <> "" ->
  let c := POST now rnd (changePassword_call e code newSecret) w in
  failure (reply c) = Some CodeMismatch /\ updates (effects c) = [] /\ world c = w /\
  reply (POST later rnd' (changePassword_call e (otp ent) newSecret) (world c))
    = PasswordChanged.
Proof.
  intros He Hw Hv Ho Hnow Hlater Hc Hne Hp c.
  destruct (POST_changePassword now rnd e code newSecret w He) as (t & Ht & E).
  specialize (E _ _ _ (changePassword_mismatch now e code newSecret w ent
                         Hc Hp Hw Hv Hnow Hne)).
  fold c in E.
  assert (Hsame : world c = w) by (by rewrite E).
  rewrite Hsame.
  destruct (POST_changePassword later rnd' e (otp ent) newSecret w He)
    as (t' & _ & E').
  specialize (E' _ _ _ (changePassword_match later e (otp ent) newSecret w ent
                          Ho Hp Hw Hv Hlater eq_refl)).
  repeat split.
  - by rewrite E.
  - rewrite E. unfold effects. cbn [snd]. by rewrite app_nil_r.
  - by rewrite E'.
Qed.

Lemma stale_code_changes_no_password_witness :
  let w2 := world (POST (C := Fixture.crypto) 10 0 (verify_call ADMIN_EMAIL "100000")
                    (world (POST (C := Fixture.crypto) 0 0 (request_call ADMIN_EMAIL)
                              Fixture.start))) in
  let c := POST (C := Fixture.crypto) 20 0
             (changePassword_call ADMIN_EMAIL "999999" "NewP@ss1") w2 in
  failure (reply c) = Some CodeMismatch /\ updates (effects c) = [] /\ world c = w2.
Proof.
  pose proof (stale_code_changes_no_password Fixture.crypto
                (world (POST (C := Fixture.crypto) 10 0
                          (verify_call ADMIN_EMAIL "100000")
                          (world (POST (C := Fixture.crypto) 0 0
                                    (request_call ADMIN_EMAIL) Fixture.start))))
                ADMIN_EMAIL
                {| otp := "100000"; expires := 600000; verified := true |}
                20 30 0 0 "999999" "NewP@ss1" fixture_eligible eq_refl eq_refl) as H.
  cbv zeta in H.
  destruct H as (H1 & H2 & H3 & _); [discriminate|done|done|discriminate|discriminate
                                     |discriminate|].
  exact (conj H1 (conj H2 H3)).
Defined.

(** X17: verifying twice is the same as verifying once: a second [verify]
    with the stored code, still before the expiry, succeeds again and
    changes nothing. *)
Theorem verify_twice (C : WebCrypto) (w : World) (e : string) (ent : OtpEntry)
    (now later : Z) (rnd rnd' : N) :
  eligible e (db w) ->
  otpStore w !! e = Some ent -> otp ent <> "" ->
  (now <= expires ent)%Z -> (later <= expires ent)%Z ->
  let v1 := POST now rnd (verify_call e (otp ent)) w in
  let v2 := POST later rnd' (verify_call e (otp ent)) (world v1) in
  reply v1 = OtpVerified /\ reply v2 = OtpVerified /\ world v2 = world v1 /\
  otpStore (world v1) !! e =
    Some {| otp := otp ent; expires := expires ent; verified := true |}.
Proof.
  intros He Hw Ho Hnow Hlater v1 v2.
  destruct (POST_verify now rnd e (otp ent) w He) as (t1 & _ & E1).
  specialize (E1 _ _ _ (verify_match now e (otp ent) w ent Ho Hw Hnow eq_refl)).
  fold v1 in E1.
  assert (H1 : otpStore (world v1) !! e =
               Some {| otp := otp ent; expires := expires ent; verified := true |}).
  { rewrite E1. apply lookup_insert_eq. }
  assert (He1 : eligible e (db (world v1))) by (by rewrite E1).
  destruct (POST_verify later rnd' e (otp ent) (world v1) He1) as (t2 & _ & E2).
  specialize (E2 _ _ _ (verify_match later e (otp ent) (world v1) _ Ho H1 Hlater
                          eq_refl)).
  fold v2 in E2. cbn [otp expires] in E2.
  repeat split; [by rewrite E1|by rewrite E2| |done].
  rewrite E2. unfold world at 1. cbn [fst snd]. rewrite E1.
  unfold world. cbn [fst snd otpStore db]. by rewrite insert_insert_eq.
Qed.

Lemma verify_twice_witness :
  let w1 := world (POST (C := Fixture.crypto) 0 0 (request_call ADMIN_EMAIL)
                     Fixture.start) in
  let v1 := POST (C := Fixture.crypto) 1 0 (verify_call ADMIN_EMAIL "100000") w1 in
  let v2 := POST (C := Fixture.crypto) 2 0 (verify_call ADMIN_EMAIL "100000")
              (world v1) in
  reply v1 = OtpVerified /\ reply v2 = OtpVerified /\ world v2 = world v1.
Proof.
  pose proof (verify_twice Fixture.crypto
                (world (POST (C := Fixture.crypto) 0 0 (request_call ADMIN_EMAIL)
                          Fixture.start))
                ADMIN_EMAIL (fresh_challenge 0 0) 1 2 0 0 fixture_eligible eq_refl) as H.
  cbv zeta in H.
  destruct H as (H1 & H2 & H3 & _); [discriminate|done|done|].
  exact (conj H1 (conj H2 H3)).
Defined.

(** X18: the route does not check the strength of the new password: with a
    verified, live challenge and its code, every non-empty new password is
    accepted and its digest written, also one that
    [validatePasswordStrength] rejects. *)
Theorem any_new_password_is_accepted (C : WebCrypto) (w : World) (e : string)
    (ent : OtpEntry) (now : Z) (rnd : N) (newSecret : string) :
  eligible e (db w) ->
  otpStore w !! e = Some ent -> verified ent = true -> otp ent <> "" ->
  (now <= expires ent)%Z ->
  newSecret <> "" ->
  let c := POST now rnd (changePassword_call e (otp ent) newSecret) w in
  reply c = PasswordChanged /\
  updates (effects c) =
    [UpdateUser (hashPassword newSecret) e "admin";
     UpdateAdminUser (hashPassword newSecret) e].
Proof.
  intros He Hw Hv Ho Hnow Hp c.
  destruct (POST_changePassword now rnd e (otp ent) newSecret w He) as (t & Ht & E).
  specialize (E _ _ _ (changePassword_match now e (otp ent) newSecret w ent
                         Ho Hp Hw Hv Hnow eq_refl)).
  fold c in E. split; [by rewrite E|].
  rewrite E. unfold effects. cbn [snd]. by rewrite updates_app, Ht.
Qed.

Lemma any_new_password_is_accepted_witness :
  Strength.valid (Strength.validatePasswordStrength "a") = false /\
  reply (POST (C := Fixture.crypto) 20 0 (changePassword_call ADMIN_EMAIL "100000" "a")
           (world (POST (C := Fixture.crypto) 10 0 (verify_call ADMIN_EMAIL "100000")
                     (world (POST (C := Fixture.crypto) 0 0 (request_call ADMIN_EMAIL)
                               Fixture.start)))))
    = PasswordChanged.
Proof.
  split; [reflexivity|].
  apply (any_new_password_is_accepted Fixture.crypto
           (world (POST (C := Fixture.crypto) 10 0 (verify_call ADMIN_EMAIL "100000")
                     (world (POST (C := Fixture.crypto) 0 0 (request_call ADMIN_EMAIL)
                               Fixture.start))))
           ADMIN_EMAIL {| otp := "100000"; expires := 600000; verified := true |}
           20 0 "a" fixture_eligible eq_refl eq_refl);
    [discriminate|done|discriminate].
Defined.

(** X19: after a successful [changePassword] the two lookups of the route
    return the rows they returned before, each with the new hash as its
    password hash; a lookup for another address or role returns what it
    returned before. *)
Theorem changed_password_is_read_back (C : WebCrypto) (w : World) (now : Z)
    (rnd : N) (body : option Body) :
  reply (POST now rnd body w) = PasswordChanged ->
  exists b newSecret,
    body = Some b /\ newPassword b = Some newSecret /\
    let d' := db (world (POST now rnd body w)) in
    rows (SelectUser ADMIN_EMAIL "admin") d' =
      map (set_hash (hashPassword newSecret))
          (rows (SelectUser ADMIN_EMAIL "admin") (db w)) /\
    rows (SelectAdminUser ADMIN_EMAIL) d' =
      map (set_hash (hashPassword newSecret))
          (rows (SelectAdminUser ADMIN_EMAIL) (db w)) /\
    (forall e r, e <> ADMIN_EMAIL \/ r <> "admin" ->
       rows (SelectUser e r) d' = rows (SelectUser e r) (db w)).
Proof.
  intros Hok.
  destruct (POST_run now rnd body w) as [[Hno _]|(b & t & -> & Hmail & Ha & Ht & Heq)];
    [done|].
  rewrite Heq in Hok |- *. unfold reply, world in *. cbn [fst snd] in *.
  destruct (switch_success _ _ _ _ _ _ Hok) as [_ Hsw]. rewrite Hsw in Hok |- *.
  destruct (changePassword_success _ _ _ _ _ Hok) as (newSecret & Hp & _ & _ & Hdb).
  exists b, newSecret. split; [done|]. split; [done|].
  unfold world in Hdb. cbv zeta. rewrite Hdb.
  split; [apply rows_users_after_update|].
  split; [apply rows_admin_users_after_update|].
  intros e r Hother. cbn [apply rows users].
  induction (users (db w)) as [|row l IH]; [done|].
  cbn [map List.filter].
  destruct (user_matches ADMIN_EMAIL "admin" row) eqn:Hm.
  - assert (Hrow : user_matches e r row = false).
    { unfold user_matches in *. apply andb_prop in Hm as [Hm1 Hm2].
      apply String.eqb_eq in Hm1, Hm2. rewrite Hm1, Hm2.
      apply andb_false_iff. destruct Hother as [Hne|Hne]; [left|right];
        apply String.eqb_neq; congruence. }
    assert (Hrow' : user_matches e r
              {| user := set_hash (hashPassword newSecret) (user row);
                 role := role row;
                 user_updated_at := current_timestamp (db w) |} = false) by exact Hrow.
    by rewrite Hrow, Hrow', IH.
  - destruct (user_matches e r row); cbn [map]; by rewrite IH.
Qed.

Lemma changed_password_is_read_back_witness :
  exists newSecret,
    rows (SelectUser ADMIN_EMAIL "admin")
      (db (world (POST (C := Fixture.crypto) 20 0
                    (changePassword_call ADMIN_EMAIL "100000" "NewP@ss1")
                    (world (POST (C := Fixture.crypto) 10 0
                              (verify_call ADMIN_EMAIL "100000")
                              (world (POST (C := Fixture.crypto) 0 0
                                        (request_call ADMIN_EMAIL)
                                        Fixture.start))))))) =
    map (set_hash (hashPassword (C := Fixture.crypto) newSecret))
        (rows (SelectUser ADMIN_EMAIL "admin") (db Fixture.start)).
Proof.
  destruct (changed_password_is_read_back Fixture.crypto
              (world (POST (C := Fixture.crypto) 10 0
                        (verify_call ADMIN_EMAIL "100000")
                        (world (POST (C := Fixture.crypto) 0 0
                                  (request_call ADMIN_EMAIL) Fixture.start))))
              20%Z 0%N (changePassword_call ADMIN_EMAIL "100000" "NewP@ss1")
              eq_refl) as (b & newSecret & _ & _ & Hrows & _).
  exists newSecret. exact Hrows.
Defined.



End OtpFlows.

(** ** The session cookie *)
Module SessionFacts.
Import Token Session.

Lemma verifyToken_generateToken (J : Jws) (key : list byte) (issued now : Z)
    (uuid : string) (p : UserPayload) :
  verifyToken key now (generateToken key issued uuid p) =
  if (issued + TOKEN_EXPIRY <=? now)%Z then None
  else Some {| claims := p; iat := Some issued;
               exp := Some (issued + TOKEN_EXPIRY)%Z; jti := Some uuid |}.
Proof.
  unfold verifyToken, jwtVerify.
  cbn [generateToken sign setJti setExpirationTime setIssuedAt
       setProtectedHeader SignJWT alg payload signature exp claims iat jti].
  rewrite !bool_decide_eq_true_2 by done. cbn [negb].
  by destruct (issued + TOKEN_EXPIRY <=? now)%Z.
Qed.

(** X21: a token put into the session cookie is read back by
    [getCurrentUser] as the claims it was issued for until 24 hours after
    issue, the cookie's own lifetime, and as [null] from then on; after
    [clearAuthCookie] it is [null] at once. *)
Theorem session_roundtrip (J : Jws) (key : list byte) (issued now : Z)
    (uuid : string) (p : UserPayload) (production : bool)
    (jar : gmap string Cookie) :
  let jar' := setAuthCookie production (generateToken key issued uuid p) jar in
  ((now < issued + 86400)%Z ->
   claims <$> getCurrentUser key now jar' = Some p) /\
  ((issued + 86400 <= now)%Z -> getCurrentUser key now jar' = None) /\
  (maxAge <$> jar' !! TOKEN_NAME) = Some TOKEN_EXPIRY /\
  getCurrentUser key now (clearAuthCookie jar') = None.
Proof.
  intros jar'. unfold getCurrentUser, jar', setAuthCookie, clearAuthCookie.
  rewrite lookup_insert_eq, lookup_delete_eq. cbn [fmap option_fmap option_map value].
  rewrite verifyToken_generateToken. change TOKEN_EXPIRY with 86400%Z.
  repeat split.
  - intros Hnow. by rewrite (proj2 (Z.leb_gt _ _)) by done.
  - intros Hnow. by rewrite (proj2 (Z.leb_le _ _)) by done.
Qed.

Lemma session_roundtrip_witness :
  claims <$> getCurrentUser (J := Fixture.jws) [x01] 86399
               (setAuthCookie true
                  (generateToken (J := Fixture.jws) [x01] 0 "id-1" Fixture.visitor) ∅)
    = Some Fixture.visitor /\
  getCurrentUser (J := Fixture.jws) [x01] 86400
    (setAuthCookie true
       (generateToken (J := Fixture.jws) [x01] 0 "id-1" Fixture.visitor) ∅) = None.
Proof.
  split.
  - apply (session_roundtrip Fixture.jws [x01] 0 86399 "id-1" Fixture.visitor true ∅).
    lia.
  - apply (session_roundtrip Fixture.jws [x01] 0 86400 "id-1" Fixture.visitor true ∅).
    lia.
Defined.

End SessionFacts.

(** ** The database module *)
Module DbFacts.
Import Db.

Section WithClient.
Context {L : Libsql}.

Lemma client_execute_sent (stmt : string * list Param) (s : State) :
  sent (snd (client_execute stmt s)) = (sent s ++ [stmt])%list /\
  db (snd (client_execute stmt s)) = db s /\
  created (snd (client_execute stmt s)) = created s /\
  env (snd (client_execute stmt s)) = env s.
Proof. unfold client_execute. by destruct (answer (sent s) stmt). Qed.

Lemma getDb_cached (s : State) (c : Config) :
  db s = Some c -> getDb s = (c, s).
Proof. intros H. unfold getDb. by rewrite H. Qed.

Lemma getDb_fresh (s : State) :
  db s = None ->
  fst (getDb s) = choose_config (env s) /\
  db (snd (getDb s)) = Some (choose_config (env s)) /\
  created (snd (getDb s)) = (created s ++ [choose_config (env s)])%list /\
  sent (snd (getDb s)) = (sent s ++ [(SCHEMA, [])])%list /\
  env (snd (getDb s)) = env s.
Proof.
  intros H. unfold getDb, initSchema. rewrite H. cbn [fst snd db].
  set (s1 := {| env := env s; db := Some (choose_config (env s));
                created := (created s ++ [choose_config (env s)])%list;
                sent := sent s |}).
  destruct (client_execute_sent (SCHEMA, []) s1) as (-> & -> & -> & ->). done.
Qed.

End WithClient.

(** X22: [getDb] keeps one client: the first call creates it from the
    environment and sends the schema once, whether or not the store
    accepts it; every later call returns that client and does nothing
    else, until [closeDb] drops it. *)
Theorem getDb_is_a_singleton (L : Libsql) (s : State) :
  let '(c1, s1) := getDb s in
  let '(c2, s2) := getDb s1 in
  db s1 = Some c1 /\ c2 = c1 /\ s2 = s1 /\
  (db s = None ->
   c1 = choose_config (env s) /\
   created s1 = (created s ++ [c1])%list /\
   sent s1 = (sent s ++ [(SCHEMA, [])])%list) /\
  (db s <> None -> s1 = s) /\
  db (closeDb s1) = None /\ created (closeDb s1) = created s1 /\
  sent (closeDb s1) = sent s1.
Proof.
  destruct (db s) as [c|] eqn:Hdb.
  - rewrite (getDb_cached s c Hdb), (getDb_cached s c Hdb).
    unfold closeDb. rewrite Hdb. done.
  - destruct (getDb_fresh s Hdb) as (Hc & Hdb1 & Hcr & Hsent & Henv).
    destruct (getDb s) as [c1 s1] eqn:E1. cbn [fst snd] in *.
    rewrite (getDb_cached s1 c1) by (by rewrite Hdb1, Hc).
    unfold closeDb. rewrite Hdb1. cbn [db created sent]. subst c1.
    repeat split; done.
Qed.

Lemma getDb_is_a_singleton_witness :
  sent (snd (getDb (L := DbFixture.libsql) DbFixture.no_client)) =
  [(SCHEMA (Libsql := DbFixture.libsql), [])].
Proof.
  generalize (getDb_is_a_singleton DbFixture.libsql DbFixture.no_client).
  destruct (getDb (L := DbFixture.libsql) DbFixture.no_client) as [c1 s1].
  destruct (getDb (L := DbFixture.libsql) s1) as [c2 s2].
  intros (_ & _ & _ & Hnew & _). destruct (Hnew eq_refl) as (_ & _ & Hsent).
  exact Hsent.
Defined.

(** X23: the remote store is chosen only when both its URL and its token
    are set and non-empty; in every other case, also with only one of the
    two set, the client is a local file, without a token, at
    [DATABASE_PATH] or at the default path when that is unset or empty. *)
Theorem config_from_environment (e : gmap string string) :
  let c := choose_config e in
  (forall u t, e !! "TURSO_DATABASE_URL" = Some u -> u <> "" ->
               e !! "TURSO_AUTH_TOKEN" = Some t -> t <> "" ->
               c = {| url := u; authToken := Some t |}) /\
  (Js.truthy (e !! "TURSO_DATABASE_URL") = false \/
   Js.truthy (e !! "TURSO_AUTH_TOKEN") = false ->
   authToken c = None /\
   exists path, url c = "file:" ++ path /\ path <> "" /\
     (forall p, e !! "DATABASE_PATH" = Some p -> p <> "" -> path = p) /\
     (Js.truthy (e !! "DATABASE_PATH") = false -> path = "./data/td_logistics.db")).
Proof.
  intros c. subst c. unfold choose_config. split.
  - intros u t -> Hu -> Ht. by rewrite !OtpFacts.truthy_nonempty by done.
  - intros Hno.
    assert (Hboth : Js.truthy (e !! "TURSO_DATABASE_URL") &&
                    Js.truthy (e !! "TURSO_AUTH_TOKEN") = false).
    { apply andb_false_iff. tauto. }
    rewrite Hboth. cbn [authToken url]. split; [done|].
    destruct (e !! "DATABASE_PATH") as [p|] eqn:Hp.
    + destruct p as [|a p].
      * exists "./data/td_logistics.db". repeat split; try done.
        by intros p [= <-].
      * exists (String a p). cbn [Js.truthy default from_option]. unfold id.
        repeat split; try done. by intros p' [= <-].
    + exists "./data/td_logistics.db". by repeat split.
Qed.

Lemma config_from_environment_witness :
  authToken (choose_config (<["TURSO_DATABASE_URL" := "libsql://x"]> ∅)) = None.
Proof.
  apply (config_from_environment (<["TURSO_DATABASE_URL" := "libsql://x"]> ∅)).
  by right.
Defined.


(** X25: a [transaction] that returns has sent COMMIT last and returns
    what [fn] returned; one that throws has sent ROLLBACK last, unless
    BEGIN itself failed, in which case [fn] did not run and nothing
    followed BEGIN. *)
Theorem transaction_brackets (L : Libsql) (T : Type) (fn : D T) (s : State) :
  let before := match db s with
                | Some _ => sent s
                | None => (sent s ++ [(SCHEMA, [])])%list
                end in
  match transaction fn s with
  | (Ok result, s') =>
      last (sent s') = Some ("COMMIT", []) /\
      exists s2 s3, fn s2 = (Ok result, s3) /\
                    sent s2 = (before ++ [("BEGIN", [])])%list
  | (Fail e, s') =>
      last (sent s') = Some ("ROLLBACK", []) \/
      (answer before ("BEGIN", []) = inl e /\
       sent s' = (before ++ [("BEGIN", [])])%list)
  end.
Proof.
  intros before.
  assert (Hget : sent (snd (getDb s)) = before).
  { subst before. destruct (db s) as [c|] eqn:Hdb.
    - by rewrite (getDb_cached s c Hdb).
    - by destruct (getDb_fresh s Hdb) as (_ & _ & _ & -> & _). }
  unfold transaction. destruct (getDb s) as [c s1]. cbn [snd] in Hget.
  pose proof (client_execute_sent ("BEGIN", []) s1) as (Hb & _).
  destruct (client_execute ("BEGIN", []) s1) as [[r|e] s2] eqn:Eb; cbn [snd] in Hb.
  2: { right. unfold client_execute in Eb. rewrite Hget in Eb, Hb.
       destruct (answer before ("BEGIN", [])); [|done]. by injection Eb as <- _. }
  destruct (fn s2) as [[result|e] s3] eqn:Ef.
  - pose proof (client_execute_sent ("COMMIT", []) s3) as (Hc & _).
    destruct (client_execute ("COMMIT", []) s3) as [[r'|e] s4]; cbn [snd] in Hc.
    + split; [by rewrite Hc, last_snoc|]. exists s2, s3. by rewrite Hb, Hget.
    + pose proof (client_execute_sent ("ROLLBACK", []) s4) as (Hr & _).
      destruct (client_execute ("ROLLBACK", []) s4) as [[r''|e'] s5];
        cbn [snd] in Hr; left; by rewrite Hr, last_snoc.
  - pose proof (client_execute_sent ("ROLLBACK", []) s3) as (Hr & _).
    destruct (client_execute ("ROLLBACK", []) s3) as [[r''|e'] s5];
      cbn [snd] in Hr; left; by rewrite Hr, last_snoc.
Qed.

(** X26: when [fn] throws and ROLLBACK is accepted, [transaction] throws
    the error of [fn] and COMMIT is not sent; when COMMIT is refused,
    ROLLBACK is sent after it; and when ROLLBACK is refused too, its error
    is the one thrown. *)
Theorem transaction_errors (L : Libsql) (T : Type) (fn : D T) (s s2 s3 : State)
    (rows : list Row) :
  client_execute ("BEGIN", []) (snd (getDb s)) = (Ok rows, s2) ->
  (forall e, fn s2 = (Fail e, s3) ->
     sent (snd (transaction fn s)) = (sent s3 ++ [("ROLLBACK", [])])%list /\
     fst (transaction fn s) =
       match answer (sent s3) ("ROLLBACK", []) with
       | inr _ => Fail e
       | inl e' => Fail e'
       end) /\
  (forall result e, fn s2 = (Ok result, s3) ->
     answer (sent s3) ("COMMIT", []) = inl e ->
     sent (snd (transaction fn s)) =
       (sent s3 ++ [("COMMIT", []); ("ROLLBACK", [])])%list /\
     fst (transaction fn s) =
       match answer (sent s3 ++ [("COMMIT", [])]) ("ROLLBACK", []) with
       | inr _ => Fail e
       | inl e' => Fail e'
       end).
Proof.
  intros Hbegin. split.
  - intros e Hfn. unfold transaction. destruct (getDb s) as [c s1].
    cbn [snd] in Hbegin. rewrite Hbegin, Hfn.
    unfold client_execute. by destruct (answer (sent s3) ("ROLLBACK", [])).
  - intros result e Hfn Hcommit. unfold transaction. destruct (getDb s) as [c s1].
    cbn [snd] in Hbegin. rewrite Hbegin, Hfn.
    assert (Hc : client_execute ("COMMIT", []) s3 =
                 (Fail e, {| env := env s3; db := db s3; created := created s3;
                             sent := (sent s3 ++ [("COMMIT", [])])%list |})).
    { unfold client_execute. by rewrite Hcommit. }
    rewrite Hc. unfold client_execute. cbn [sent].
    destruct (answer (sent s3 ++ [("COMMIT", [])]) ("ROLLBACK", []));
      cbn [fst snd sent]; by rewrite <- app_assoc.
Qed.

Lemma transaction_errors_witness :
  fst (transaction (L := DbFixture.libsql) (execute (L := DbFixture.libsql) "FAIL" [])
         DbFixture.no_client) = Fail "refused: FAIL" /\
  last (sent (snd (transaction (L := DbFixture.libsql)
                     (execute (L := DbFixture.libsql) "FAIL" []) DbFixture.no_client)))
    = Some ("ROLLBACK", []).
Proof.
  pose (s2 := snd (client_execute (L := DbFixture.libsql) ("BEGIN", [])
                     (snd (getDb DbFixture.no_client)))).
  pose (s3 := snd (execute (L := DbFixture.libsql) "FAIL" [] s2)).
  destruct (transaction_errors DbFixture.libsql _
              (execute (L := DbFixture.libsql) "FAIL" []) DbFixture.no_client
              s2 s3 ["BEGIN"] eq_refl) as [Hfn _].
  destruct (Hfn "refused: FAIL" eq_refl) as [Hsent Hres].
  split; [exact Hres|]. rewrite Hsent. reflexivity.
Defined.

End DbFacts.

(** ** The upload route *)
Module UploadFacts.
Import Upload.




End UploadFacts.
